(** * MP5922 PMBus eFuse monitor: a shallow embedding of [efuse_code.py]

    The Python program talks to an MP5922 eFuse controller through a
    USB-ISS serial-to-I2C bridge.  This development embeds the register
    helpers, the PMBus actions, the datasheet conversions, the fault
    decoder, the status display and the command-line driver, and proves
    properties of them.

    Python values are modelled as follows.
    - [int] is [Z]; [&], [|], [<<], [>>] are [Z.land], [Z.lor], [Z.shiftl],
      [Z.shiftr] (Python integers are unbounded two's complement).
    - [float] is the kernel's binary64 [float]; the conversion of an [int]
      operand of a mixed [int * float] product is [float_of_int].
    - a raised exception is the [Raise] outcome of a computation.
    - the [i2c] object and the [UsbIss] driver are external: a program is a
      tree of device calls ([prog]) that [run] executes against an arbitrary
      deterministic [Transport], recording the calls in a trace. *)

From Stdlib Require Import ZArith List String Ascii Bool Lia Floats Uint63 QArith.
From Stdlib.Strings Require Import Byte.
Import ListNotations.
Set Warnings "-inexact-float".
Open Scope string_scope.
Open Scope list_scope.
Open Scope Z_scope.

(** ** Exceptions and outcomes *)

Inductive exn : Type :=
| IndexError
| ValueError
| OverflowError
| ZeroDivisionError
| TransportError.

Inductive result (A : Type) : Type :=
| Ok (a : A)
| Raise (e : exn).
Arguments Ok {A} a.
Arguments Raise {A} e.

Definition rbind {A B : Type} (r : result A) (f : A -> result B) : result B :=
  match r with
  | Ok a => f a
  | Raise e => Raise e
  end.

(** ** Python integers *)

(** Truth value of an [int] in a condition. *)
Definition truthy (z : Z) : bool := negb (z =? 0).

(** ** Fault decoder (lines 76-99) *)

(** [if c: faults.append(name)] *)
Definition append_if (c : bool) (name : string) (faults : list string) : list string :=
  if c then faults ++ [name] else faults.

Definition decode_faults (sw si sin st : Z) : list string :=
  let faults := [] in
  (* STATUS_WORD (0x79) *)
  let faults := append_if (truthy (Z.land sw (Z.shiftl 1 15))) "VOUT_OV" faults in
  let faults := append_if (truthy (Z.land sw (Z.shiftl 1 14))) "IOUT_OC" faults in
  let faults := append_if (truthy (Z.land sw (Z.shiftl 1 13))) "VIN_UV" faults in
  let faults := append_if (truthy (Z.land sw (Z.shiftl 1 12))) "TEMP_FAULT" faults in
  let faults := append_if (truthy (Z.land sw (Z.shiftl 1 7))) "DEVICE_FAULT" faults in
  let faults := append_if (truthy (Z.land sw (Z.shiftl 1 6))) "POWER_GOOD=NO" faults in
  (* STATUS_IOUT (0x7B) *)
  let faults := append_if (truthy (Z.land si 0x01)) "IOUT_OC_WARNING" faults in
  let faults := append_if (truthy (Z.land si 0x02)) "IOUT_OC_FAULT" faults in
  (* STATUS_INPUT (0x7C) *)
  let faults := append_if (truthy (Z.land sin 0x01)) "VIN_UV_FAULT" faults in
  let faults := append_if (truthy (Z.land sin 0x02)) "VIN_OV_FAULT" faults in
  (* STATUS_TEMP (0x7D) *)
  let faults := append_if (truthy (Z.land st 0x01)) "TEMP_WARNING" faults in
  let faults := append_if (truthy (Z.land st 0x02)) "TEMP_FAULT" faults in
  match faults with
  | [] => ["NO_FAULTS"]
  | _ :: _ => faults
  end.

(** The twelve tests of [decode_faults] read as a table: which status
    register, which bit, which name, in the order of the source lines. *)
Inductive status_reg : Type := STATUS_WORD | STATUS_IOUT | STATUS_INPUT | STATUS_TEMP.

Definition fault_table : list (status_reg * Z * string) :=
  [ (STATUS_WORD, 15, "VOUT_OV");
    (STATUS_WORD, 14, "IOUT_OC");
    (STATUS_WORD, 13, "VIN_UV");
    (STATUS_WORD, 12, "TEMP_FAULT");
    (STATUS_WORD, 7, "DEVICE_FAULT");
    (STATUS_WORD, 6, "POWER_GOOD=NO");
    (STATUS_IOUT, 0, "IOUT_OC_WARNING");
    (STATUS_IOUT, 1, "IOUT_OC_FAULT");
    (STATUS_INPUT, 0, "VIN_UV_FAULT");
    (STATUS_INPUT, 1, "VIN_OV_FAULT");
    (STATUS_TEMP, 0, "TEMP_WARNING");
    (STATUS_TEMP, 1, "TEMP_FAULT") ].

Definition row_name (row : status_reg * Z * string) : string := snd row.

Definition row_set (sw si sin st : Z) (row : status_reg * Z * string) : bool :=
  match row with
  | (STATUS_WORD, bit, _) => Z.testbit sw bit
  | (STATUS_IOUT, bit, _) => Z.testbit si bit
  | (STATUS_INPUT, bit, _) => Z.testbit sin bit
  | (STATUS_TEMP, bit, _) => Z.testbit st bit
  end.

(** The names of the rows whose bit is set, in table order. *)
Definition table_hits (sw si sin st : Z) : list string :=
  map row_name (filter (row_set sw si sin st) fault_table).

(** No row of the table has its bit set. *)
Definition listed_bits_clear (sw si sin st : Z) : Prop :=
  forall row, In row fault_table -> row_set sw si sin st row = false.

(** ** Python floats *)

(** A number as Python holds it: the summary's efficiency is the [int] [0]
    on one branch and a [float] on the other. *)
Inductive pynum : Type :=
| PyInt (z : Z)
| PyFloat (f : float).

(** Conversion of an [int] operand to [float] in mixed arithmetic: correctly
    rounded (to nearest, ties to even), [OverflowError] when the rounded
    value exceeds the largest float.  Below [2^63] in magnitude the rounding
    is the hardware conversion [of_uint63]; above, [binary_normalize]. *)
Definition float_of_int (z : Z) : result float :=
  if Z.abs z <? 2 ^ 63 then
    Ok (if z <? 0 then (- of_uint63 (Uint63.of_Z (- z)))%float
        else of_uint63 (Uint63.of_Z z))
  else
    match binary_normalize prec emax z 0 false with
    | S754_infinity _ => Raise OverflowError
    | sf => Ok (SF2Prim sf)
    end.

(** [z * f] with [z] an [int] and [f] a [float]. *)
Definition int_mul_float (z : Z) (f : float) : result float :=
  rbind (float_of_int z) (fun x => Ok (x * f)%float).

(** [a / b] on floats: Python raises on a zero divisor of either sign. *)
Definition py_truediv (a b : float) : result float :=
  if (b =? 0)%float then Raise ZeroDivisionError else Ok (a / b)%float.

(** ** Datasheet conversions (lines 63-71) *)

Definition raw_to_voltage (raw : Z) : result float :=
  int_mul_float raw 0.015625.

Definition raw_to_power (raw : Z) : result float :=
  int_mul_float raw 0.125.

(** ** Console output *)

Definition nl : string := String (ascii_of_nat 10) EmptyString.

(** A printed line is kept as the pieces of its f-string: literal text and
    the values with their format specifications. *)
Inductive piece : Type :=
| Lit (s : string)
| Hex04 (z : Z)                          (* {z:04X} *)
| Dec (z : Z)                            (* {z} *)
| Fixed (digits : nat) (x : pynum)       (* {x:.2f}, {x:.3f} *)
| Join (sep : string) (items : list string).  (* sep.join(items) *)

(** ** Device calls, traces and programs *)

Inductive event : Type :=
| EvOpen (port : string)                 (* iss.open(port) *)
| EvSetupI2c (khz : Z)                   (* iss.setup_i2c(khz) *)
| EvClose                                (* iss.close() *)
| EvRead (addr reg n : Z)                (* i2c.read(addr, reg, n) *)
| EvWrite (addr reg : Z) (data : list Z) (* i2c.write(addr, reg, data) *)
| EvSleep (secs : float)                 (* time.sleep(secs) *)
| EvPrint (text : list piece).           (* print(...) *)

(** The calls that reach the USB-ISS driver. *)
Definition is_device_call (ev : event) : bool :=
  match ev with
  | EvSleep _ | EvPrint _ => false
  | _ => true
  end.

(** The register accesses among them. *)
Definition is_bus_call (ev : event) : bool :=
  match ev with
  | EvRead _ _ _ | EvWrite _ _ _ => true
  | _ => false
  end.

Definition bus_log (trace : list event) : list event := filter is_bus_call trace.

(** A program: what the Python code does between two device calls is pure,
    so a run is a tree branching on the bytes a read returns. *)
Inductive prog (A : Type) : Type :=
| Ret (a : A)
| Throw (e : exn)
| I2cRead (addr reg n : Z) (k : list byte -> prog A)
| Emit (ev : event) (k : prog A).
Arguments Ret {A} a.
Arguments Throw {A} e.
Arguments I2cRead {A} addr reg n k.
Arguments Emit {A} ev k.

Fixpoint bind {A B : Type} (p : prog A) (f : A -> prog B) : prog B :=
  match p with
  | Ret a => f a
  | Throw e => Throw e
  | I2cRead addr reg n k => I2cRead addr reg n (fun d => bind (k d) f)
  | Emit ev k => Emit ev (bind k f)
  end.

Declare Scope prog_scope.
Delimit Scope prog_scope with prog.
Notation "x <- p ;; q" := (bind p (fun x => q))
  (at level 61, p at next level, right associativity) : prog_scope.
Notation "p ;; q" := (bind p (fun _ => q))
  (at level 61, right associativity) : prog_scope.
Open Scope prog_scope.

Definition lift {A : Type} (r : result A) : prog A :=
  match r with
  | Ok a => Ret a
  | Raise e => Throw e
  end.

Definition i2c_read (addr reg n : Z) : prog (list byte) := I2cRead addr reg n Ret.
Definition i2c_write (addr reg : Z) (data : list Z) : prog unit :=
  Emit (EvWrite addr reg data) (Ret tt).
Definition sleep (secs : float) : prog unit := Emit (EvSleep secs) (Ret tt).
Definition print (text : list piece) : prog unit := Emit (EvPrint text) (Ret tt).
Definition usb_open (port : string) : prog unit := Emit (EvOpen port) (Ret tt).
Definition usb_setup_i2c (khz : Z) : prog unit := Emit (EvSetupI2c khz) (Ret tt).
Definition usb_close : prog unit := Emit EvClose (Ret tt).

(** The external collaborator: a deterministic driver answers each call
    from the calls made so far.  A read returns bytes or raises; any other
    driver call returns nothing or raises. *)
Record Transport : Type := mkTransport {
  t_read : list event -> Z -> Z -> Z -> result (list byte);
  t_call : list event -> event -> result unit
}.

(** [run tr p h] executes [p] after the trace [h]; a call is recorded
    whether or not the driver raises on it. *)
Fixpoint run {A : Type} (tr : Transport) (p : prog A) (h : list event)
  : list event * result A :=
  match p with
  | Ret a => (h, Ok a)
  | Throw e => (h, Raise e)
  | I2cRead addr reg n k =>
      match t_read tr h addr reg n with
      | Ok d => run tr (k d) (h ++ [EvRead addr reg n])
      | Raise e => (h ++ [EvRead addr reg n], Raise e)
      end
  | Emit ev k =>
      if is_device_call ev then
        match t_call tr h ev with
        | Ok _ => run tr k (h ++ [ev])
        | Raise e => (h ++ [ev], Raise e)
        end
      else run tr k (h ++ [ev])
  end.

(** ** Configuration (lines 12-20) *)

Definition PORT : string := "/dev/ttyACM0".
Definition I2C_SPEED_KHZ : Z := 100.
Definition MP5922_ADDR : Z := 0x70.

(** The dict [PAGES], in insertion order. *)
Definition PAGES : list (Z * string) :=
  [ (0, "Main Rail (Loop 1)");
    (1, "Aux Rail  (Loop 2)");
    (2, "Rail 3    (Loop 3)") ].

(** ** Low-level helpers (lines 25-37) *)

Definition byte_val (b : byte) : Z := Z.of_N (Byte.to_N b).

(** [d[i]] on a list, for [i >= 0]. *)
Definition index {A : Type} (d : list A) (i : nat) : result A :=
  match nth_error d i with
  | Some x => Ok x
  | None => Raise IndexError
  end.

Definition read_word (addr reg : Z) : prog Z :=
  d <- i2c_read addr reg 2 ;;
  d0 <- lift (index d 0) ;;
  d1 <- lift (index d 1) ;;
  Ret (Z.lor (byte_val d0) (Z.shiftl (byte_val d1) 8)).

Definition write_word (addr reg value : Z) : prog unit :=
  i2c_write addr reg [Z.land value 0xFF; Z.land (Z.shiftr value 8) 0xFF].

Definition write_byte (addr reg value : Z) : prog unit :=
  i2c_write addr reg [Z.land value 0xFF].

Definition select_page (page : Z) : prog unit :=
  i2c_write MP5922_ADDR 0x00 [Z.land page 0xFF] ;;
  sleep 0.01.

(** ** PMBus core actions (lines 42-58) *)

Definition unlock_mp5922 : prog unit :=
  write_word MP5922_ADDR 0xE1 0x82C2 ;;
  sleep 0.02.

Definition clear_faults : prog unit :=
  i2c_write MP5922_ADDR 0x03 [] ;;
  sleep 0.01.

Definition rail_enable (page : Z) : prog unit :=
  select_page page ;;
  write_byte MP5922_ADDR 0x01 0x80.

Definition rail_disable (page : Z) : prog unit :=
  select_page page ;;
  write_byte MP5922_ADDR 0x01 0x00.

(** ** Status display (lines 104-157) *)

(** Line 135: [pout / vout if vout > 0 else 0.0]. *)
Definition derive_current (pout vout : float) : result float :=
  if (0 <? vout)%float then py_truediv pout vout else Ok 0%float.

(** Line 150: [(total_pout / pin_w * 100) if pin_w > 0 else 0]. *)
Definition efficiency (total_pout pin_w : float) : result pynum :=
  if (0 <? pin_w)%float then
    rbind (py_truediv total_pout pin_w) (fun q => Ok (PyFloat (q * 100)%float))
  else Ok (PyInt 0).

(** What one rail contributes: the values read and derived in one pass of
    the loop. *)
Record RailReport : Type := mkRailReport {
  rail_page : Z;
  rail_name : string;
  vin_raw : Z;  vout_raw : Z;  iout_raw : Z;  pout_raw : Z;
  vin : float;  vout : float;  pout : float;  iout : float;
  faults : list string
}.

(** The body of the [for] loop, lines 118-146. *)
Definition status_rail (page : Z) (name : string) : prog RailReport :=
  select_page page ;;
  vin_raw <- read_word MP5922_ADDR 0x88 ;;
  vout_raw <- read_word MP5922_ADDR 0x8B ;;
  iout_raw <- read_word MP5922_ADDR 0x8C ;;
  pout_raw <- read_word MP5922_ADDR 0x96 ;;
  sw <- read_word MP5922_ADDR 0x79 ;;
  si <- read_word MP5922_ADDR 0x7B ;;
  sin <- read_word MP5922_ADDR 0x7C ;;
  st <- read_word MP5922_ADDR 0x7D ;;
  vin <- lift (raw_to_voltage vin_raw) ;;
  vout <- lift (raw_to_voltage vout_raw) ;;
  pout <- lift (raw_to_power pout_raw) ;;
  iout <- lift (derive_current pout vout) ;;
  let faults := decode_faults sw si sin st in
  print [Lit "PAGE "; Dec page; Lit " : "; Lit name] ;;
  print [Lit "  VIN   : raw=0x"; Hex04 vin_raw; Lit " ("; Dec vin_raw; Lit ") → ";
         Fixed 2 (PyFloat vin); Lit " V"] ;;
  print [Lit "  VOUT  : raw=0x"; Hex04 vout_raw; Lit " ("; Dec vout_raw; Lit ") → ";
         Fixed 2 (PyFloat vout); Lit " V"] ;;
  print [Lit "  IOUT  : "; Fixed 3 (PyFloat iout); Lit " A (derived from POUT/VOUT)"] ;;
  print [Lit "           raw=0x"; Hex04 iout_raw; Lit " ("; Dec iout_raw;
         Lit ") [diagnostic]"] ;;
  print [Lit "  POUT  : raw=0x"; Hex04 pout_raw; Lit " ("; Dec pout_raw; Lit ") → ";
         Fixed 2 (PyFloat pout); Lit " W"] ;;
  print [Lit "  FAULTS: "; Join ", " faults; Lit nl] ;;
  Ret (mkRailReport page name vin_raw vout_raw iout_raw pout_raw
         vin vout pout iout faults).

(** The loop over [pages], threading [total_pout]; the rails' values are
    collected in order. *)
Fixpoint status_rails (pages : list (Z * string)) (total_pout : float)
  : prog (float * list RailReport) :=
  match pages with
  | [] => Ret (total_pout, [])
  | (page, name) :: rest =>
      r <- status_rail page name ;;
      acc <- status_rails rest (total_pout + pout r)%float ;;
      Ret (fst acc, r :: snd acc)
  end.

(** The locals of [show_status] when it returns ([show_status] itself
    returns [None]; the values are those it printed). *)
Record SystemReport : Type := mkSystemReport {
  pin_raw : Z;
  pin_w : float;
  rails : list RailReport;
  total_pout : float;
  loss : float;
  eff : pynum
}.

(** [show_status] over a table of pages. *)
Definition show_status_of (pages : list (Z * string)) : prog SystemReport :=
  print [Lit nl; Lit "=========== MP5922 STATUS (RAW + CONVERTED) ==========="; Lit nl] ;;
  (* global input power *)
  pin_raw <- read_word MP5922_ADDR 0x97 ;;
  pin_w <- lift (raw_to_power pin_raw) ;;
  print [Lit "INPUT (GLOBAL)"] ;;
  print [Lit "  READ_PIN : raw=0x"; Hex04 pin_raw; Lit " ("; Dec pin_raw; Lit ") → ";
         Fixed 2 (PyFloat pin_w); Lit " W"; Lit nl] ;;
  (* per rail *)
  acc <- status_rails pages 0%float ;;
  let total_pout := fst acc in
  (* summary *)
  let loss := (pin_w - total_pout)%float in
  eff <- lift (efficiency total_pout pin_w) ;;
  print [Lit "POWER SUMMARY"] ;;
  print [Lit "  ΣPOUT     : "; Fixed 2 (PyFloat total_pout); Lit " W"] ;;
  print [Lit "  PIN       : "; Fixed 2 (PyFloat pin_w); Lit " W"] ;;
  print [Lit "  LOSSES    : "; Fixed 2 (PyFloat loss); Lit " W"] ;;
  print [Lit "  EFFICIENCY: "; Fixed 2 eff; Lit " %"] ;;
  print [Lit nl; Lit "====================================================="; Lit nl] ;;
  Ret (mkSystemReport pin_raw pin_w (snd acc) total_pout loss eff).

Definition show_status : prog SystemReport := show_status_of PAGES.

(** ** Command line (lines 162-209) *)

Definition usage : string :=
"
Usage:
  python efuse_full_monitor_raw.py status
  python efuse_full_monitor_raw.py on <page>
  python efuse_full_monitor_raw.py off <page>
  python efuse_full_monitor_raw.py on_all
  python efuse_full_monitor_raw.py off_all
  python efuse_full_monitor_raw.py clear
".

(** [for x in l: body(x)] *)
Fixpoint for_each {A : Type} (l : list A) (body : A -> prog unit) : prog unit :=
  match l with
  | [] => Ret tt
  | x :: rest => body x ;; for_each rest body
  end.

Section Main.

(** The builtin [int] on a string: a value, or [ValueError]. *)
Variable py_int : string -> option Z.

Definition int_of_str (s : string) : result Z :=
  match py_int s with
  | Some z => Ok z
  | None => Raise ValueError
  end.

(** The branch taken for [cmd], lines 185-207. *)
Definition dispatch (argv : list string) (cmd : string) : prog unit :=
  if String.eqb cmd "status" then
    show_status ;; Ret tt
  else if String.eqb cmd "on" then
    arg <- lift (index argv 2) ;;
    page <- lift (int_of_str arg) ;;
    rail_enable page
  else if String.eqb cmd "off" then
    arg <- lift (index argv 2) ;;
    page <- lift (int_of_str arg) ;;
    rail_disable page
  else if String.eqb cmd "on_all" then
    for_each (map fst PAGES) rail_enable
  else if String.eqb cmd "off_all" then
    for_each (map fst PAGES) rail_disable
  else if String.eqb cmd "clear" then
    clear_faults ;;
    print [Lit "[OK] Faults cleared"]
  else
    print [Lit "Unknown command"].

Definition main (argv : list string) : prog unit :=
  usb_open PORT ;;
  usb_setup_i2c I2C_SPEED_KHZ ;;
  unlock_mp5922 ;;
  if (List.length argv <? 2)%nat then
    print [Lit usage] ;;
    usb_close
  else
    cmd <- lift (index argv 1) ;;
    dispatch argv cmd ;;
    usb_close.

End Main.

(** ** Mock transports *)

(** The page a simulated device is on: the byte of the last page-select
    write, page 0 at power-up. *)
Definition current_page (h : list event) : Z :=
  fold_left (fun pg ev => match ev with
                          | EvWrite _ 0 [p] => p
                          | _ => pg
                          end) h 0.

Definition byte_of_Z (x : Z) : byte :=
  match Byte.of_N (Z.to_N (Z.land x 0xFF)) with
  | Some b => b
  | None => x00
  end.

(** The [n] low bytes of [v], least significant first. *)
Definition le_bytes (v : Z) (n : nat) : list byte :=
  map (fun i => byte_of_Z (Z.shiftr v (8 * Z.of_nat i))) (seq 0 n).

(** A device holding the word [regs page reg] in register [reg] of page
    [page]; every write is accepted. *)
Definition sim_transport (regs : Z -> Z -> Z) : Transport :=
  mkTransport
    (fun h _ reg n => Ok (le_bytes (regs (current_page h) reg) (Z.to_nat n)))
    (fun _ _ => Ok tt).

(** A bridge that answers every read with a single byte. *)
Definition short_transport : Transport :=
  mkTransport (fun _ _ _ _ => Ok [x2a]) (fun _ _ => Ok tt).

(** A bridge on which every register access fails. *)
Definition dead_transport : Transport :=
  mkTransport (fun _ _ _ _ => Raise TransportError)
              (fun _ ev => if is_bus_call ev then Raise TransportError else Ok tt).

(** A transport that never fails and returns as many bytes as asked. *)
Definition responsive (tr : Transport) : Prop :=
  (forall h addr reg n, exists d,
      t_read tr h addr reg n = Ok d /\ List.length d = Z.to_nat n) /\
  (forall h ev, t_call tr h ev = Ok tt).

(** ** Exact values of floats *)

(** The rational a finite binary64 value denotes. *)
Definition SF_to_Q (x : spec_float) : option Q :=
  match x with
  | S754_zero _ => Some 0%Q
  | S754_finite s m e =>
      let n := if s then Z.neg m else Z.pos m in
      Some (match e with
            | Z0 => inject_Z n
            | Z.pos k => inject_Z (n * Z.pos (2 ^ k))
            | Z.neg k => Qmake n (2 ^ k)
            end)
  | _ => None
  end.

Definition float_to_Q (f : float) : option Q := SF_to_Q (Prim2SF f).

(** [f] is finite and denotes exactly the rational [q]. *)
Definition float_is (f : float) (q : Q) : Prop :=
  exists q', float_to_Q f = Some q' /\ (q' == q)%Q.

(** The binary64 representation of [raw / 2^sh] for a word [raw]: the word
    shifted up to a 53-bit mantissa. *)
Definition scaled_word (raw sh : Z) : spec_float :=
  if raw =? 0 then S754_zero false
  else
    let d := Z.log2 raw + 1 in
    S754_finite false (Z.to_pos (Z.shiftl raw (53 - d))) (d - 53 - sh).

(** Both conversions of [raw] give the scaled word. *)
Definition word_converts (raw : Z) : bool :=
  let x := of_uint63 (Uint63.of_Z raw) in
  PrimFloat.Leibniz.eqb (x * 0.015625)%float (SF2Prim (scaled_word raw 6)) &&
  PrimFloat.Leibniz.eqb (x * 0.125)%float (SF2Prim (scaled_word raw 3)).

(** [f] on every [acc * 2^n + i], [i < 2^n]. *)
Fixpoint forall_bits (n : nat) (f : Z -> bool) (acc : Z) : bool :=
  match n with
  | O => f acc
  | S k => forall_bits k f (2 * acc) && forall_bits k f (2 * acc + 1)
  end.

(** ** Specifications of runs *)

(** [run_sat tr p h ok err]: the run of [p] after [h] ends in a value and a
    trace satisfying [ok], or in an exception and a trace satisfying [err]. *)
Definition run_sat {A : Type} (tr : Transport) (p : prog A) (h : list event)
  (ok : list event -> A -> Prop) (err : list event -> exn -> Prop) : Prop :=
  match run tr p h with
  | (h', Ok a) => ok h' a
  | (h', Raise e) => err h' e
  end.

(** The exception [e] is the failure of the last device call of the trace:
    the driver raised it, or a word read was answered with fewer than two
    bytes and indexing the answer raised [IndexError]. *)
Definition call_failed (tr : Transport) (h' : list event) (e : exn) : Prop :=
  (exists h0 addr reg,
      h' = h0 ++ [EvRead addr reg 2] /\
      (t_read tr h0 addr reg 2 = Raise e \/
       exists d, t_read tr h0 addr reg 2 = Ok d /\
                 (List.length d < 2)%nat /\ e = IndexError)) \/
  (exists h0 ev,
      h' = h0 ++ [ev] /\ is_device_call ev = true /\ t_call tr h0 ev = Raise e).

(** The register accesses of one rail and of a whole status display. *)
Definition rail_calls (page : Z) : list event :=
  [ EvWrite MP5922_ADDR 0x00 [page mod 256];
    EvRead MP5922_ADDR 0x88 2; EvRead MP5922_ADDR 0x8B 2;
    EvRead MP5922_ADDR 0x8C 2; EvRead MP5922_ADDR 0x96 2;
    EvRead MP5922_ADDR 0x79 2; EvRead MP5922_ADDR 0x7B 2;
    EvRead MP5922_ADDR 0x7C 2; EvRead MP5922_ADDR 0x7D 2 ].

Definition status_calls (pages : list (Z * string)) : list event :=
  EvRead MP5922_ADDR 0x97 2 :: flat_map (fun pn => rail_calls (fst pn)) pages.

(** A 16-bit register value. *)
Definition is_word (raw : Z) : Prop := 0 <= raw < 65536.

(** What the loop body establishes about the rail it reports. *)
Definition rail_consistent (r : RailReport) : Prop :=
  is_word (vin_raw r) /\ is_word (vout_raw r) /\
  is_word (iout_raw r) /\ is_word (pout_raw r) /\
  raw_to_voltage (vin_raw r) = Ok (vin r) /\
  raw_to_voltage (vout_raw r) = Ok (vout r) /\
  raw_to_power (pout_raw r) = Ok (pout r) /\
  derive_current (pout r) (vout r) = Ok (iout r) /\
  exists sw si sin st,
    is_word sw /\ is_word si /\ is_word sin /\ is_word st /\
    faults r = decode_faults sw si sin st.

(** The sum the loop accumulates, left to right from [start]. *)
Definition sum_pout (start : float) (rs : list RailReport) : float :=
  fold_left (fun t r => (t + pout r)%float) rs start.

(** What [show_status] establishes about its locals. *)
Definition report_consistent (pages : list (Z * string)) (rep : SystemReport) : Prop :=
  is_word (pin_raw rep) /\
  raw_to_power (pin_raw rep) = Ok (pin_w rep) /\
  Forall rail_consistent (rails rep) /\
  map (fun r => (rail_page r, rail_name r)) (rails rep) = pages /\
  total_pout rep = sum_pout 0 (rails rep) /\
  loss rep = (pin_w rep - total_pout rep)%float /\
  efficiency (total_pout rep) (pin_w rep) = Ok (eff rep).

(** A demonstration register file: 100 W in (or nothing, on a quiet
    input), 12 V out and 10, 20, 30 W on pages 0, 1, 2. *)
Definition demo_regs (page reg : Z) : Z :=
  if reg =? 0x97 then 800
  else if reg =? 0x96 then 80 * (page + 1)
  else if reg =? 0x8B then 768
  else 0.

Definition quiet_input_regs (page reg : Z) : Z :=
  if reg =? 0x97 then 0 else demo_regs page reg.

(** The report of the status display on the quiet-input device. *)
Definition quiet_report : SystemReport :=
  match snd (run (sim_transport quiet_input_regs) show_status []) with
  | Ok rep => rep
  | Raise _ => mkSystemReport 0 0 [] 0 0 (PyInt 0)
  end.

(** Everything but the console output. *)
Definition is_io (ev : event) : bool :=
  match ev with
  | EvPrint _ => false
  | _ => true
  end.

Definition io_log (trace : list event) : list event := filter is_io trace.

(** One rail and a whole status display, waits included. *)
Definition rail_io (page : Z) : list event :=
  [ EvWrite MP5922_ADDR 0x00 [page mod 256]; EvSleep 0.01;
    EvRead MP5922_ADDR 0x88 2; EvRead MP5922_ADDR 0x8B 2;
    EvRead MP5922_ADDR 0x8C 2; EvRead MP5922_ADDR 0x96 2;
    EvRead MP5922_ADDR 0x79 2; EvRead MP5922_ADDR 0x7B 2;
    EvRead MP5922_ADDR 0x7C 2; EvRead MP5922_ADDR 0x7D 2 ].

Definition status_io (pages : list (Z * string)) : list event :=
  EvRead MP5922_ADDR 0x97 2 :: flat_map (fun pn => rail_io (fst pn)) pages.

(** [only_emits P p]: whatever the reads return, every event [p] can emit
    satisfies [P]. *)
Fixpoint only_emits {A : Type} (P : event -> Prop) (p : prog A) : Prop :=
  match p with
  | Ret _ | Throw _ => True
  | I2cRead addr reg n k => P (EvRead addr reg n) /\ forall d, only_emits P (k d)
  | Emit ev k => P ev /\ only_emits P k
  end.

(** What a status display may do: read words from the device, select a
    page, wait, print. *)
Definition status_event (ev : event) : Prop :=
  match ev with
  | EvRead addr _ n => addr = MP5922_ADDR /\ n = 2
  | EvWrite addr reg [_] => addr = MP5922_ADDR /\ reg = 0x00
  | EvSleep _ | EvPrint _ => True
  | _ => False
  end.

(** [main] up to, and without, its closing [iss.close()]. *)
Definition before_close (py_int : string -> option Z) (argv : list string) : prog unit :=
  usb_open PORT ;;
  usb_setup_i2c I2C_SPEED_KHZ ;;
  unlock_mp5922 ;;
  if (List.length argv <? 2)%nat then
    print [Lit usage]
  else
    cmd <- lift (index argv 1) ;;
    dispatch py_int argv cmd.

(** The events with which every run of [main] starts. *)
Definition session_start : list event :=
  [ EvOpen PORT; EvSetupI2c I2C_SPEED_KHZ;
    EvWrite MP5922_ADDR 0xE1 [0xC2; 0x82]; EvSleep 0.02 ].

(** A driver that accepts every call that is not a read. *)
Definition accepts_calls (tr : Transport) : Prop :=
  forall h ev, t_call tr h ev = Ok tt.

(** The builtin [int] restricted to plain decimal digits, enough to
    exercise [main]. *)
Fixpoint digits_value (s : string) (acc : Z) : option Z :=
  match s with
  | EmptyString => Some acc
  | String c rest =>
      let n := Z.of_nat (nat_of_ascii c) in
      if (48 <=? n) && (n <=? 57) then digits_value rest (10 * acc + (n - 48))
      else None
  end.

Definition decimal_int (s : string) : option Z :=
  match s with
  | EmptyString => None
  | _ => digits_value s 0
  end.

(** No string occurs twice in [l]. *)
Fixpoint nodupb (l : list string) : bool :=
  match l with
  | [] => true
  | x :: rest => negb (existsb (String.eqb x) rest) && nodupb rest
  end.

(** [f] is [g] followed by closing the bridge. *)
Definition then_close (tr : Transport) (f g : prog unit) : Prop :=
  forall h,
    run tr f h =
    match run tr g h with
    | (h1, Ok _) => run tr usb_close h1
    | (h1, Raise e) => (h1, Raise e)
    end.

(** The three events of switching a rail. *)
Definition switch_io (ctl page : Z) : list event :=
  [ EvWrite MP5922_ADDR 0x00 [page mod 256]; EvSleep 0.01;
    EvWrite MP5922_ADDR 0x01 [ctl] ].

(** The six command words of [main]. *)
Definition known_commands : list string :=
  ["status"; "on"; "off"; "on_all"; "off_all"; "clear"].

(** * Theorems *)

(** ** Theorems about the fault decoder *)

Lemma truthy_land_bit (x n : Z) :
  0 <= n -> truthy (Z.land x (Z.shiftl 1 n)) = Z.testbit x n.
Proof.
  intros Hn. unfold truthy.
  rewrite Z.shiftl_1_l.
  destruct (Z.testbit x n) eqn:Hb.
  - apply negb_true_iff, Z.eqb_neq. intros H0.
    assert (Ht : Z.testbit (Z.land x (2 ^ n)) n = true)
      by (rewrite Z.land_spec, Hb, Z.pow2_bits_true; auto).
    rewrite H0, Z.bits_0 in Ht. discriminate.
  - apply negb_false_iff, Z.eqb_eq. apply Z.bits_inj'. intros k Hk.
    rewrite Z.land_spec, Z.bits_0.
    destruct (Z.eq_dec n k) as [->|Hne].
    + rewrite Hb. reflexivity.
    + rewrite Z.pow2_bits_false by assumption. apply andb_false_r.
Qed.

Lemma truthy_land_1 (x : Z) : truthy (Z.land x 0x01) = Z.testbit x 0.
Proof. apply (truthy_land_bit x 0). lia. Qed.

Lemma truthy_land_2 (x : Z) : truthy (Z.land x 0x02) = Z.testbit x 1.
Proof. apply (truthy_land_bit x 1). lia. Qed.

Lemma append_if_app (c : bool) (name : string) (faults : list string) :
  append_if c name faults = faults ++ (if c then [name] else []).
Proof. destruct c; simpl; [reflexivity | now rewrite app_nil_r]. Qed.

Lemma map_filter_cons {A B : Type} (f : A -> B) (p : A -> bool) (a : A) (l : list A) :
  map f (filter p (a :: l)) = (if p a then [f a] else []) ++ map f (filter p l).
Proof. simpl. destruct (p a); reflexivity. Qed.

(** The decoder is the table read top to bottom, with the sentinel when no
    row is hit. *)
Lemma decode_faults_table (sw si sin st : Z) :
  decode_faults sw si sin st =
  match table_hits sw si sin st with
  | [] => ["NO_FAULTS"]
  | hits => hits
  end.
Proof.
  unfold decode_faults, table_hits, fault_table.
  rewrite !truthy_land_1, !truthy_land_2, !truthy_land_bit by lia.
  rewrite !append_if_app, !map_filter_cons.
  cbn [row_set row_name snd filter map app].
  rewrite app_nil_r, <- !app_assoc.
  destruct (_ ++ _); reflexivity.
Qed.

(** The decoder never returns an empty list. *)
Lemma decode_faults_nonempty (sw si sin st : Z) : decode_faults sw si sin st <> [].
Proof.
  unfold decode_faults.
  match goal with |- match ?l with _ => _ end <> _ => destruct l end; discriminate.
Qed.

Lemma filter_none {A : Type} (p : A -> bool) (l : list A) :
  (forall x, In x l -> p x = false) -> filter p l = [].
Proof.
  induction l as [|x l IH]; intros H; [reflexivity|].
  simpl. rewrite (H x (or_introl eq_refl)).
  apply IH. intros y Hy. apply H. now right.
Qed.

Lemma listed_bits_clear_hits (sw si sin st : Z) :
  listed_bits_clear sw si sin st -> table_hits sw si sin st = [].
Proof.
  intros H. unfold table_hits. now rewrite (filter_none _ _ H).
Qed.

(** C1 (the code departs from the claim): with bit 12 of the status word
    and bit 1 of the temperature status both set, the decoder returns the
    name TEMP_FAULT twice, so its result has a duplicate. *)
Theorem C1_temp_fault_listed_twice :
  decode_faults 0x1000 0 0 0x02 = ["TEMP_FAULT"; "TEMP_FAULT"] /\
  ~ NoDup (decode_faults 0x1000 0 0 0x02).
Proof.
  split; [reflexivity|].
  change (decode_faults 0x1000 0 0 0x02) with ["TEMP_FAULT"; "TEMP_FAULT"].
  intros H. inversion H as [|x l Hin _]; subst. apply Hin. now left.
Qed.

(** C2, as stated, fails: 0xC0C0 has bits 15, 14, 7 and 6 set but not bits
    13 and 12, so the decoder does not return the twelve names of the
    table. *)
Lemma C2_counterexample :
  decode_faults 0xC0C0 0x03 0x03 0x03 <> map row_name fault_table /\
  List.length (decode_faults 0xC0C0 0x03 0x03 0x03) = 10%nat.
Proof. split; [discriminate | reflexivity]. Qed.

(** C2, amended: decode(0xC0C0, 3, 3, 3) returns the ten names of the rows
    whose bit is set, in table order; the rows of bits 13 and 12 of the
    status word are absent because 0xC0C0 does not set them. *)
Theorem C2_decode_C0C0 :
  decode_faults 0xC0C0 0x03 0x03 0x03 =
    ["VOUT_OV"; "IOUT_OC"; "DEVICE_FAULT"; "POWER_GOOD=NO";
     "IOUT_OC_WARNING"; "IOUT_OC_FAULT"; "VIN_UV_FAULT"; "VIN_OV_FAULT";
     "TEMP_WARNING"; "TEMP_FAULT"] /\
  decode_faults 0xC0C0 0x03 0x03 0x03 = table_hits 0xC0C0 0x03 0x03 0x03 /\
  Z.testbit 0xC0C0 13 = false /\ Z.testbit 0xC0C0 12 = false.
Proof. repeat split; reflexivity. Qed.

(** C6: the decoder's result is never empty; when no listed bit is set it
    is exactly the sentinel; decode(0,0,0,0) is the sentinel and
    decode(0x8000,0,0,0) is the single name of VOUT overvoltage. *)
Theorem C6_decode_nonempty_sentinel (sw si sin st : Z) :
  decode_faults sw si sin st <> [] /\
  (listed_bits_clear sw si sin st -> decode_faults sw si sin st = ["NO_FAULTS"]) /\
  decode_faults 0 0 0 0 = ["NO_FAULTS"] /\
  decode_faults 0x8000 0 0 0 = ["VOUT_OV"].
Proof.
  split; [apply decode_faults_nonempty|].
  split; [|split; reflexivity].
  intros H. rewrite decode_faults_table, (listed_bits_clear_hits _ _ _ _ H).
  reflexivity.
Qed.

Lemma C6_witness :
  listed_bits_clear 0x0F3F 0xFC 0xFC 0xFC /\
  decode_faults 0x0F3F 0xFC 0xFC 0xFC = ["NO_FAULTS"].
Proof.
  assert (H : listed_bits_clear 0x0F3F 0xFC 0xFC 0xFC).
  { intros row Hin. simpl in Hin.
    repeat (destruct Hin as [<-|Hin]; [reflexivity|]). destruct Hin. }
  split; [exact H|].
  exact (proj1 (proj2 (C6_decode_nonempty_sentinel 0x0F3F 0xFC 0xFC 0xFC)) H).
Defined.

(** ** Running programs *)

Lemma run_bind {A B : Type} (tr : Transport) (p : prog A) (f : A -> prog B) :
  forall h,
    run tr (bind p f) h =
    match run tr p h with
    | (h', Ok a) => run tr (f a) h'
    | (h', Raise e) => (h', Raise e)
    end.
Proof.
  induction p as [a|e|addr reg n k IH|ev k IH]; intros h; simpl.
  - reflexivity.
  - reflexivity.
  - destruct (t_read tr h addr reg n); [apply IH | reflexivity].
  - destruct (is_device_call ev); [|apply IH].
    destruct (t_call tr h ev); [apply IH | reflexivity].
Qed.

(** A run only ever adds to the trace. *)
Lemma run_extends {A : Type} (tr : Transport) (p : prog A) :
  forall h, exists t, fst (run tr p h) = h ++ t.
Proof.
  induction p as [a|e|addr reg n k IH|ev k IH]; intros h; simpl.
  - exists []. now rewrite app_nil_r.
  - exists []. now rewrite app_nil_r.
  - destruct (t_read tr h addr reg n) as [d|e].
    + destruct (IH d (h ++ [EvRead addr reg n])) as [t Ht].
      exists (EvRead addr reg n :: t). rewrite Ht, <- app_assoc. reflexivity.
    + exists [EvRead addr reg n]. reflexivity.
  - assert (Hk : exists t, fst (run tr k (h ++ [ev])) = h ++ t).
    { destruct (IH (h ++ [ev])) as [t Ht]. exists (ev :: t).
      rewrite Ht, <- app_assoc. reflexivity. }
    destruct (is_device_call ev); [|exact Hk].
    destruct (t_call tr h ev); [exact Hk|].
    exists [ev]. reflexivity.
Qed.

Lemma bus_log_app (t1 t2 : list event) : bus_log (t1 ++ t2) = bus_log t1 ++ bus_log t2.
Proof. apply filter_app. Qed.

(** ** Register helpers *)

Lemma byte_val_range (b : byte) : 0 <= byte_val b < 256.
Proof.
  unfold byte_val. pose proof (Byte.to_N_bounded b) as H.
  split; [apply N2Z.is_nonneg | lia].
Qed.

(** Little-endian composition is the sum: the two bytes do not overlap. *)
Lemma word_of_bytes (b0 b1 : byte) :
  Z.lor (byte_val b0) (Z.shiftl (byte_val b1) 8) = byte_val b0 + 256 * byte_val b1.
Proof.
  pose proof (byte_val_range b0) as H0.
  rewrite Z.shiftl_mul_pow2 by lia.
  pose proof (Z.add_lor_land (byte_val b0) (byte_val b1 * 2 ^ 8)) as Hsum.
  assert (Hland : Z.land (byte_val b0) (byte_val b1 * 2 ^ 8) = 0).
  { apply Z.bits_inj'. intros n Hn. rewrite Z.land_spec, Z.bits_0.
    destruct (Z.ltb_spec n 8).
    - rewrite Z.mul_pow2_bits_low by lia. apply andb_false_r.
    - replace (Z.testbit (byte_val b0) n) with false; [reflexivity|].
      symmetry. destruct (Z.eq_dec (byte_val b0) 0) as [->|Hne]; [apply Z.bits_0|].
      apply Z.bits_above_log2; [lia|].
      apply Z.lt_le_trans with 8; [|assumption].
      apply Z.log2_lt_pow2; [lia|]. change (2 ^ 8) with 256. lia. }
  rewrite Hland in Hsum. change (2 ^ 8) with 256 in *. lia.
Qed.

Lemma word_of_bytes_range (b0 b1 : byte) :
  0 <= Z.lor (byte_val b0) (Z.shiftl (byte_val b1) 8) < 65536.
Proof.
  rewrite word_of_bytes.
  pose proof (byte_val_range b0). pose proof (byte_val_range b1). lia.
Qed.

(** C9: [read_word] issues one read of exactly 2 bytes; from a response of
    at least two bytes it returns byte0 | byte1 << 8; on a response of
    fewer than two bytes it raises (IndexError) instead of filling in
    zeros. *)
Theorem C9_read_word (tr : Transport) (addr reg : Z) (h : list event) :
  fst (run tr (read_word addr reg) h) = h ++ [EvRead addr reg 2] /\
  (forall b0 b1 rest,
      t_read tr h addr reg 2 = Ok (b0 :: b1 :: rest) ->
      snd (run tr (read_word addr reg) h)
      = Ok (Z.lor (byte_val b0) (Z.shiftl (byte_val b1) 8))) /\
  (forall d,
      t_read tr h addr reg 2 = Ok d -> (List.length d < 2)%nat ->
      snd (run tr (read_word addr reg) h) = Raise IndexError).
Proof.
  unfold read_word, i2c_read. simpl.
  destruct (t_read tr h addr reg 2) as [d|e] eqn:Hd.
  - destruct d as [|b0 [|b1 rest]]; simpl.
    + split; [reflexivity|]. split; [intros; discriminate|]. reflexivity.
    + split; [reflexivity|]. split; [intros; discriminate|]. reflexivity.
    + split; [reflexivity|]. split.
      * intros c0 c1 r Heq. injection Heq as -> -> ->. reflexivity.
      * intros d Heq Hlen. injection Heq as <-. simpl in Hlen. lia.
  - split; [reflexivity|]. split; intros; discriminate.
Qed.

Lemma C9_witness :
  snd (run (sim_transport (fun _ _ => 0x1234)) (read_word MP5922_ADDR 0x88) [])
  = Ok 0x1234 /\
  snd (run short_transport (read_word MP5922_ADDR 0x88) []) = Raise IndexError.
Proof.
  split.
  - exact (proj1 (proj2 (C9_read_word (sim_transport (fun _ _ => 0x1234))
                           MP5922_ADDR 0x88 [])) x34 x12 [] eq_refl).
  - apply (proj2 (proj2 (C9_read_word short_transport MP5922_ADDR 0x88 [])) [x2a]).
    + reflexivity.
    + simpl. lia.
Defined.

(** ** Register writes and rail switches *)

Lemma land_FF (x : Z) : Z.land x 0xFF = x mod 256.
Proof. change 0xFF with (Z.ones 8). now rewrite Z.land_ones by lia. Qed.

Lemma mod_65536_split (x : Z) :
  x mod 65536 = 256 * ((x / 256) mod 256) + x mod 256.
Proof.
  pose proof (Z.div_mod x 256 ltac:(lia)) as Hx.
  pose proof (Z.mod_pos_bound x 256 ltac:(lia)) as Hr.
  pose proof (Z.mod_pos_bound (x / 256) 256 ltac:(lia)) as Hq.
  pose proof (Z.div_mod (x / 256) 256 ltac:(lia)) as Hxq.
  symmetry. apply (Z.mod_unique x 65536 (x / 256 / 256)); lia.
Qed.

Lemma hi_byte (x : Z) : Z.land (Z.shiftr x 8) 0xFF = (x mod 65536) / 256.
Proof.
  rewrite land_FF, Z.shiftr_div_pow2 by lia. change (2 ^ 8) with 256.
  pose proof (Z.mod_pos_bound x 256 ltac:(lia)) as Hr.
  pose proof (Z.mod_pos_bound (x / 256) 256 ltac:(lia)) as Hq.
  rewrite mod_65536_split. apply (Z.div_unique _ 256 _ (x mod 256)); lia.
Qed.

Lemma lo_byte (x : Z) : Z.land x 0xFF = (x mod 65536) mod 256.
Proof.
  rewrite land_FF.
  pose proof (Z.mod_pos_bound x 256 ltac:(lia)) as Hr.
  rewrite mod_65536_split.
  apply (Z.mod_unique _ 256 ((x / 256) mod 256)); lia.
Qed.

(** C10: every register write truncates: [write_word] sends value mod 2^16
    as its low byte then its high byte, [write_byte] and [select_page] send
    value mod 2^8 as one byte; each byte sent lies in 0..255 whatever the
    integer given, and nothing is rejected before the write is issued. *)
Theorem C10_writes_truncate (tr : Transport) (addr reg value page : Z) (h : list event) :
  let w := value mod 65536 in
  fst (run tr (write_word addr reg value) h)
    = h ++ [EvWrite addr reg [w mod 256; w / 256]] /\
  w mod 256 + 256 * (w / 256) = w /\
  0 <= w mod 256 < 256 /\ 0 <= w / 256 < 256 /\
  fst (run tr (write_byte addr reg value) h)
    = h ++ [EvWrite addr reg [value mod 256]] /\
  bus_log (fst (run tr (select_page page) h))
    = bus_log h ++ [EvWrite MP5922_ADDR 0x00 [page mod 256]] /\
  0 <= value mod 256 < 256 /\ 0 <= page mod 256 < 256.
Proof.
  intros w.
  pose proof (Z.mod_pos_bound value 65536 ltac:(lia)) as Hw. fold w in Hw.
  pose proof (Z.mod_pos_bound w 256 ltac:(lia)) as Hlo.
  pose proof (Z.div_mod w 256 ltac:(lia)) as Hsplit.
  pose proof (Z.mod_pos_bound value 256 ltac:(lia)) as Hv.
  pose proof (Z.mod_pos_bound page 256 ltac:(lia)) as Hp.
  assert (Hhi : 0 <= w / 256 < 256).
  { split; [apply Z.div_le_lower_bound | apply Z.div_lt_upper_bound]; lia. }
  assert (Hword : fst (run tr (write_word addr reg value) h)
                  = h ++ [EvWrite addr reg [w mod 256; w / 256]]).
  { unfold write_word, i2c_write. rewrite lo_byte, hi_byte. fold w. simpl.
    destruct (t_call tr h _); reflexivity. }
  assert (Hbyte : fst (run tr (write_byte addr reg value) h)
                  = h ++ [EvWrite addr reg [value mod 256]]).
  { unfold write_byte, i2c_write. rewrite land_FF. simpl.
    destruct (t_call tr h _); reflexivity. }
  assert (Hpage : bus_log (fst (run tr (select_page page) h))
                  = bus_log h ++ [EvWrite MP5922_ADDR 0x00 [page mod 256]]).
  { unfold select_page, i2c_write, sleep. rewrite land_FF. simpl.
    destruct (t_call tr h _); simpl;
      rewrite ?bus_log_app; simpl; rewrite ?app_nil_r; reflexivity. }
  repeat split; try assumption; lia.
Qed.

(** The trace of a rail switch on a bridge that accepts every call. *)
Lemma run_rail_switch (tr : Transport) (page ctl : Z) (h : list event) :
  (forall h' ev, t_call tr h' ev = Ok tt) ->
  run tr (select_page page ;; write_byte MP5922_ADDR 0x01 ctl) h
  = (h ++ [EvWrite MP5922_ADDR 0x00 [page mod 256]; EvSleep 0.01;
           EvWrite MP5922_ADDR 0x01 [ctl mod 256]], Ok tt).
Proof.
  intros Hw. unfold select_page, write_byte, i2c_write, sleep.
  rewrite !land_FF. simpl. rewrite !Hw. rewrite <- !app_assoc. reflexivity.
Qed.

(** C3, as stated, fails: index 7 is not a configured rail, yet enabling or
    disabling it issues the page-select write and the operation-register
    write, and the operation succeeds. *)
Lemma C3_counterexample :
  ~ In 7 (map fst PAGES) /\
  run (sim_transport (fun _ _ => 0)) (rail_enable 7) []
  = ([EvWrite MP5922_ADDR 0x00 [7]; EvSleep 0.01; EvWrite MP5922_ADDR 0x01 [0x80]], Ok tt) /\
  run (sim_transport (fun _ _ => 0)) (rail_disable 7) []
  = ([EvWrite MP5922_ADDR 0x00 [7]; EvSleep 0.01; EvWrite MP5922_ADDR 0x01 [0x00]], Ok tt).
Proof.
  split; [|split; reflexivity].
  simpl. intros H. repeat (destruct H as [H|H]; [discriminate|]). exact H.
Qed.

(** C3, amended: rail enable and rail disable check nothing.  For every
    integer index, configured or not, on a bridge that accepts the writes
    they issue the page-select write of index mod 256 to register 0x00,
    wait, and write the control byte (0x80 on, 0x00 off) to the operation
    register 0x01. *)
Theorem C3_rail_switch_unchecked (tr : Transport) (page : Z) (h : list event)
  (Hw : forall h' ev, t_call tr h' ev = Ok tt) :
  run tr (rail_enable page) h
  = (h ++ [EvWrite MP5922_ADDR 0x00 [page mod 256]; EvSleep 0.01;
           EvWrite MP5922_ADDR 0x01 [0x80]], Ok tt) /\
  run tr (rail_disable page) h
  = (h ++ [EvWrite MP5922_ADDR 0x00 [page mod 256]; EvSleep 0.01;
           EvWrite MP5922_ADDR 0x01 [0x00]], Ok tt).
Proof.
  split; [apply (run_rail_switch tr page 0x80 h Hw)
         | apply (run_rail_switch tr page 0x00 h Hw)].
Qed.

Lemma C3_witness :
  run (sim_transport (fun _ _ => 0)) (rail_enable (-1)) []
  = ([EvWrite MP5922_ADDR 0x00 [255]; EvSleep 0.01; EvWrite MP5922_ADDR 0x01 [0x80]], Ok tt).
Proof.
  exact (proj1 (C3_rail_switch_unchecked (sim_transport (fun _ _ => 0)) (-1) []
                 (fun _ _ => eq_refl))).
Defined.
(** ** Conversions of register words *)

Lemma forall_bits_spec (n : nat) (f : Z -> bool) :
  forall acc, forall_bits n f acc = true ->
  forall z, acc * 2 ^ Z.of_nat n <= z < (acc + 1) * 2 ^ Z.of_nat n -> f z = true.
Proof.
  induction n as [|k IH]; intros acc H z Hz.
  - simpl in *. replace z with acc by lia. exact H.
  - cbn [forall_bits] in H. apply andb_true_iff in H. destruct H as [H0 H1].
    rewrite Nat2Z.inj_succ, Z.pow_succ_r in Hz by lia.
    set (P := 2 ^ Z.of_nat k) in *.
    replace (acc * (2 * P)) with (2 * (acc * P)) in Hz by ring.
    replace ((acc + 1) * (2 * P)) with (2 * (acc * P) + 2 * P) in Hz by ring.
    destruct (Z.lt_ge_cases z (2 * (acc * P) + P)).
    + apply (IH _ H0).
      replace (2 * acc * P) with (2 * (acc * P)) by ring.
      replace ((2 * acc + 1) * P) with (2 * (acc * P) + P) by ring. lia.
    + apply (IH _ H1).
      replace ((2 * acc + 1) * P) with (2 * (acc * P) + P) by ring.
      replace ((2 * acc + 1 + 1) * P) with (2 * (acc * P) + 2 * P) by ring. lia.
Qed.

Lemma words_convert : forall_bits 16 word_converts 0 = true.
Proof. vm_compute. reflexivity. Qed.

Lemma float_of_int_small (z : Z) :
  0 <= z < 2 ^ 63 -> float_of_int z = Ok (of_uint63 (Uint63.of_Z z)).
Proof.
  intros Hz. unfold float_of_int.
  replace (Z.abs z <? 2 ^ 63) with true by (symmetry; apply Z.ltb_lt; lia).
  replace (z <? 0) with false by (symmetry; apply Z.ltb_ge; lia).
  reflexivity.
Qed.

Lemma digits2_pos_size (p : positive) : digits2_pos p = Pos.size p.
Proof. induction p; simpl; congruence. Qed.

Lemma size_log2 (p : positive) : Z.pos (Pos.size p) = Z.log2 (Z.pos p) + 1.
Proof. destruct p; simpl; lia. Qed.

(** The mantissa of a scaled word: the word shifted up to 53 bits. *)
Lemma scaled_mantissa (raw : Z) :
  0 < raw < 2 ^ 53 ->
  let k := 53 - (Z.log2 raw + 1) in
  0 <= k /\
  Z.pos (Z.to_pos (Z.shiftl raw k)) = raw * 2 ^ k /\
  Z.log2 (raw * 2 ^ k) = 52.
Proof.
  intros Hr k.
  assert (Hlog : Z.log2 raw < 53) by (apply Z.log2_lt_pow2; lia).
  assert (Hk : 0 <= k) by (unfold k; lia).
  assert (Hp : 0 < 2 ^ k) by (apply Z.pow_pos_nonneg; lia).
  split; [exact Hk|]. split.
  - rewrite Z.shiftl_mul_pow2 by exact Hk. apply Z2Pos.id. nia.
  - rewrite Z.log2_mul_pow2 by lia. unfold k. lia.
Qed.

Lemma scaled_word_valid (raw sh : Z) :
  0 <= raw < 2 ^ 53 -> 0 <= sh <= 1000 -> valid_binary (scaled_word raw sh) = true.
Proof.
  intros Hr Hs. unfold scaled_word.
  destruct (Z.eqb_spec raw 0) as [->|Hne]; [reflexivity|].
  destruct (scaled_mantissa raw ltac:(lia)) as (Hk & Hm & Hlog).
  assert (Hl : 0 <= Z.log2 raw) by apply Z.log2_nonneg.
  cbv zeta. unfold valid_binary, bounded, canonical_mantissa, fexp, SpecFloat.emin, emax, prec.
  rewrite digits2_pos_size, size_log2, Hm, Hlog.
  apply andb_true_iff. split.
  - apply Z.eqb_eq. lia.
  - apply Z.leb_le. lia.
Qed.

Lemma word_shape (raw : Z) :
  0 <= raw < 65536 ->
  exists v p,
    raw_to_voltage raw = Ok v /\ raw_to_power raw = Ok p /\
    Prim2SF v = scaled_word raw 6 /\ Prim2SF p = scaled_word raw 3.
Proof.
  intros Hr.
  assert (Hc : word_converts raw = true).
  { apply (forall_bits_spec 16 _ 0 words_convert). change (2 ^ Z.of_nat 16) with 65536. lia. }
  unfold word_converts in Hc.
  apply andb_true_iff in Hc. destruct Hc as [He6 He3].
  apply FloatAxioms.Leibniz.eqb_spec in He6, He3.
  assert (H53 : 65536 < 2 ^ 53) by reflexivity.
  assert (H63 : 65536 < 2 ^ 63) by reflexivity.
  unfold raw_to_voltage, raw_to_power, int_mul_float.
  rewrite float_of_int_small by lia.
  cbn [rbind]. eexists. eexists. split; [reflexivity|]. split; [reflexivity|].
  rewrite He6, He3. split; apply Prim2SF_SF2Prim; apply scaled_word_valid; lia.
Qed.

(** The exact value of a scaled word. *)
Lemma scaled_word_Q (raw : Z) (s : positive) :
  0 <= raw < 2 ^ 53 ->
  exists q, SF_to_Q (scaled_word raw (Z.pos s)) = Some q /\ (q == raw # 2 ^ s)%Q.
Proof.
  intros Hr. unfold scaled_word.
  destruct (Z.eqb_spec raw 0) as [->|Hne].
  - exists 0%Q. split; reflexivity.
  - destruct (scaled_mantissa raw ltac:(lia)) as (Hk & Hm & Hlog).
    assert (Hl : 0 <= Z.log2 raw) by apply Z.log2_nonneg.
    cbv zeta. cbn [SF_to_Q].
    destruct (Z.log2 raw + 1 - 53 - Z.pos s) as [|e|e] eqn:He; try lia.
    eexists. split; [reflexivity|].
    unfold Qeq. cbn [Qnum Qden]. rewrite Hm, !Pos2Z.inj_pow.
    replace (Z.pos e) with (53 - (Z.log2 raw + 1) + Z.pos s) by lia.
    rewrite Z.pow_add_r by lia. ring.
Qed.

(** Scaled words are ordered as the words are. *)
Lemma scaled_word_le (a b sh : Z) :
  0 <= a <= b -> b < 2 ^ 53 ->
  SFleb (scaled_word a sh) (scaled_word b sh) = true.
Proof.
  intros Hab Hb. unfold scaled_word.
  destruct (Z.eqb_spec a 0) as [->|Ha]; destruct (Z.eqb_spec b 0) as [->|Hb0];
    try reflexivity; try lia.
  destruct (scaled_mantissa a ltac:(lia)) as (Hka & Hma & _).
  destruct (scaled_mantissa b ltac:(lia)) as (Hkb & Hmb & _).
  assert (Hlog : Z.log2 a <= Z.log2 b) by (apply Z.log2_le_mono; lia).
  cbv zeta. unfold SFleb, SFcompare.
  destruct (Z.compare_spec (Z.log2 a + 1 - 53 - sh) (Z.log2 b + 1 - 53 - sh)) as [He|He|He];
    try reflexivity; try lia.
  assert (Heq : Z.log2 a = Z.log2 b) by lia.
  rewrite Heq in *.
  fold (Pos.compare (Z.to_pos (Z.shiftl a (53 - (Z.log2 b + 1))))
                    (Z.to_pos (Z.shiftl b (53 - (Z.log2 b + 1))))).
  rewrite Pos2Z.inj_compare, Hma, Hmb.
  assert (Hp : 0 < 2 ^ (53 - (Z.log2 b + 1))) by (apply Z.pow_pos_nonneg; lia).
  destruct (Z.compare_spec (a * 2 ^ (53 - (Z.log2 b + 1))) (b * 2 ^ (53 - (Z.log2 b + 1))));
    try reflexivity. nia.
Qed.

(** ** Comparisons with zero *)

Lemma Prim2SF_zero : Prim2SF 0%float = S754_zero false.
Proof. reflexivity. Qed.

(** A float above zero is not zero. *)
Lemma pos_not_zero (v : float) : (0 <? v)%float = true -> (v =? 0)%float = false.
Proof.
  rewrite FloatAxioms.ltb_spec, FloatAxioms.eqb_spec, Prim2SF_zero.
  destruct (Prim2SF v) as [s|s| |s m e]; try destruct s; cbv; congruence.
Qed.

(** A float at most zero is not above zero. *)
Lemma nonpos_not_pos (v : float) : (v <=? 0)%float = true -> (0 <? v)%float = false.
Proof.
  rewrite FloatAxioms.ltb_spec, FloatAxioms.leb_spec, Prim2SF_zero.
  destruct (Prim2SF v) as [s|s| |s m e]; try destruct s; cbv; congruence.
Qed.

Lemma derive_current_ok (pout vout : float) :
  derive_current pout vout
  = Ok (if (0 <? vout)%float then (pout / vout)%float else 0%float).
Proof.
  unfold derive_current, py_truediv.
  destruct (0 <? vout)%float eqn:Hpos; [|reflexivity].
  now rewrite (pos_not_zero _ Hpos).
Qed.

Lemma efficiency_ok (total_pout pin_w : float) :
  efficiency total_pout pin_w
  = Ok (if (0 <? pin_w)%float then PyFloat (total_pout / pin_w * 100)%float
        else PyInt 0).
Proof.
  unfold efficiency, py_truediv.
  destruct (0 <? pin_w)%float eqn:Hpos; [|reflexivity].
  now rewrite (pos_not_zero _ Hpos).
Qed.

(** C5: for every power and every voltage at most zero the derived current
    is exactly 0.0; for every voltage above zero it is power / voltage; the
    division is never reached with a zero divisor, so the derivation always
    returns. *)
Theorem C5_derived_current (pout vout : float) :
  ((vout <=? 0)%float = true -> derive_current pout vout = Ok 0%float) /\
  ((0 <? vout)%float = true -> derive_current pout vout = Ok (pout / vout)%float) /\
  derive_current pout vout <> Raise ZeroDivisionError.
Proof.
  rewrite derive_current_ok. repeat split.
  - intros H. now rewrite (nonpos_not_pos _ H).
  - intros H. now rewrite H.
  - discriminate.
Qed.

Lemma C5_witness :
  derive_current 8 (-1) = Ok 0%float /\ derive_current 1 1 = Ok 1%float.
Proof.
  split.
  - exact (proj1 (C5_derived_current 8 (-1)) eq_refl).
  - exact (proj1 (proj2 (C5_derived_current 1 1)) eq_refl).
Defined.

(** C7: on a 16-bit raw value the conversions are exact and linear, voltage
    = raw * 0.015625 = raw / 64 and power = raw * 0.125 = raw / 8 as
    rationals, and non-decreasing in the raw value; voltage(0) = 0,
    voltage(64) = 1.0, power(0) = 0 and power(8) = 1.0 exactly. *)
Theorem C7_conversions_linear_monotone (a b : Z)
  (Hab : 0 <= a <= b) (Hb : b < 65536) :
  exists va vb pa pb,
    raw_to_voltage a = Ok va /\ raw_to_voltage b = Ok vb /\
    raw_to_power a = Ok pa /\ raw_to_power b = Ok pb /\
    float_is va (a # 64) /\ float_is pa (a # 8) /\
    (va <=? vb)%float = true /\ (pa <=? pb)%float = true /\
    float_is 0.015625 (1 # 64) /\ float_is 0.125 (1 # 8) /\
    raw_to_voltage 0 = Ok 0%float /\ raw_to_voltage 64 = Ok 1%float /\
    raw_to_power 0 = Ok 0%float /\ raw_to_power 8 = Ok 1%float.
Proof.
  assert (H53 : 65536 < 2 ^ 53) by reflexivity.
  destruct (word_shape a ltac:(lia)) as (va & pa & Hva & Hpa & Sva & Spa).
  destruct (word_shape b ltac:(lia)) as (vb & pb & Hvb & Hpb & Svb & Spb).
  exists va, vb, pa, pb.
  unfold float_is at 1 2. unfold float_to_Q at 1 2.
  rewrite Sva, Spa, !FloatAxioms.leb_spec, Sva, Svb, Spa, Spb.
  repeat (split; [first [assumption | apply (scaled_word_Q a 6); lia
                        | apply (scaled_word_Q a 3); lia
                        | apply scaled_word_le; lia
                        | eexists; split; reflexivity
                        | reflexivity ]|]).
  reflexivity.
Qed.

Lemma C7_witness :
  exists va vb pa pb,
    raw_to_voltage 64 = Ok va /\ raw_to_voltage 65535 = Ok vb /\
    raw_to_power 64 = Ok pa /\ raw_to_power 65535 = Ok pb /\
    float_is va (64 # 64) /\ float_is pa (64 # 8) /\
    (va <=? vb)%float = true /\ (pa <=? pb)%float = true /\
    float_is 0.015625 (1 # 64) /\ float_is 0.125 (1 # 8) /\
    raw_to_voltage 0 = Ok 0%float /\ raw_to_voltage 64 = Ok 1%float /\
    raw_to_power 0 = Ok 0%float /\ raw_to_power 8 = Ok 1%float.
Proof.
  apply (C7_conversions_linear_monotone 64 65535); lia.
Defined.

(** ** Rules for run specifications *)

Lemma sat_bind {A B : Type} (tr : Transport) (p : prog A) (f : A -> prog B)
  (h : list event) (ok : list event -> B -> Prop) (err : list event -> exn -> Prop) :
  run_sat tr p h (fun h' a => run_sat tr (f a) h' ok err) err ->
  run_sat tr (bind p f) h ok err.
Proof.
  unfold run_sat. rewrite run_bind.
  destruct (run tr p h) as [h' [a|e]]; auto.
Qed.

Lemma sat_weaken {A : Type} (tr : Transport) (p : prog A) (h : list event)
  (ok ok' : list event -> A -> Prop) (err err' : list event -> exn -> Prop) :
  run_sat tr p h ok err ->
  (forall h' a, ok h' a -> ok' h' a) ->
  (forall h' e, err h' e -> err' h' e) ->
  run_sat tr p h ok' err'.
Proof.
  unfold run_sat. destruct (run tr p h) as [h' [a|e]]; auto.
Qed.

(** A step of a sequence: [p] meets [mid], and the rest is run from any
    state [mid] allows. *)
Lemma sat_step {A B : Type} (tr : Transport) (p : prog A) (f : A -> prog B)
  (h : list event) (mid : list event -> A -> Prop)
  (ok : list event -> B -> Prop) (err : list event -> exn -> Prop) :
  run_sat tr p h mid err ->
  (forall h' a, mid h' a -> run_sat tr (f a) h' ok err) ->
  run_sat tr (bind p f) h ok err.
Proof.
  intros Hp Hf. apply sat_bind.
  apply (sat_weaken tr p h mid _ err err Hp); auto.
Qed.

Lemma sat_quiet {A : Type} (tr : Transport) (ev : event) (k : prog A)
  (h : list event) (ok : list event -> A -> Prop) (err : list event -> exn -> Prop) :
  is_device_call ev = false ->
  run_sat tr k (h ++ [ev]) ok err ->
  run_sat tr (Emit ev k) h ok err.
Proof. unfold run_sat. simpl. now intros ->. Qed.

Lemma sat_read_word (tr : Transport) (addr reg : Z) (h : list event) :
  run_sat tr (read_word addr reg) h
    (fun h' w => h' = h ++ [EvRead addr reg 2] /\ is_word w) (call_failed tr).
Proof.
  unfold run_sat, read_word, i2c_read. simpl.
  destruct (t_read tr h addr reg 2) as [d|e] eqn:Hd.
  - destruct d as [|b0 [|b1 rest]]; simpl.
    + left. exists h, addr, reg. split; [reflexivity|]. right.
      exists []. simpl. auto.
    + left. exists h, addr, reg. split; [reflexivity|]. right.
      exists [b0]. simpl. auto.
    + split; [reflexivity | apply word_of_bytes_range].
  - left. exists h, addr, reg. auto.
Qed.

Lemma sat_select_page (tr : Transport) (page : Z) (h : list event) :
  run_sat tr (select_page page) h
    (fun h' _ => h' = h ++ [EvWrite MP5922_ADDR 0x00 [page mod 256]; EvSleep 0.01])
    (call_failed tr).
Proof.
  unfold select_page, i2c_write, sleep. rewrite land_FF. cbn [bind].
  unfold run_sat. simpl.
  destruct (t_call tr h _) as [u|e] eqn:Hc.
  - now rewrite <- app_assoc.
  - right. eexists h, _. auto.
Qed.

Lemma raw_to_voltage_word (raw : Z) :
  is_word raw -> raw_to_voltage raw = Ok (of_uint63 (Uint63.of_Z raw) * 0.015625)%float.
Proof.
  intros Hr. assert (H63 : 65536 < 2 ^ 63) by reflexivity. unfold is_word in Hr.
  unfold raw_to_voltage, int_mul_float. now rewrite float_of_int_small by lia.
Qed.

Lemma raw_to_power_word (raw : Z) :
  is_word raw -> raw_to_power raw = Ok (of_uint63 (Uint63.of_Z raw) * 0.125)%float.
Proof.
  intros Hr. assert (H63 : 65536 < 2 ^ 63) by reflexivity. unfold is_word in Hr.
  unfold raw_to_power, int_mul_float. now rewrite float_of_int_small by lia.
Qed.

(** ** The status display *)

Ltac read_step h w Hh Hw :=
  eapply sat_step; [apply sat_read_word|]; cbv beta; intros h w [Hh Hw].

Ltac print_steps :=
  repeat (cbn [bind print]; apply sat_quiet; [reflexivity|]).

Lemma io_log_app (t1 t2 : list event) : io_log (t1 ++ t2) = io_log t1 ++ io_log t2.
Proof. apply filter_app. Qed.

(** The register accesses are what is left of the io log without waits
    and driver calls. *)
Lemma bus_log_io (t : list event) : bus_log t = filter is_bus_call (io_log t).
Proof.
  unfold bus_log, io_log. induction t as [|ev t IH]; [reflexivity|].
  destruct ev; simpl; now rewrite IH.
Qed.

Lemma sat_status_rail (tr : Transport) (page : Z) (name : string) (h : list event) :
  run_sat tr (status_rail page name) h
    (fun h' r =>
       io_log h' = io_log h ++ rail_io page /\
       rail_page r = page /\ rail_name r = name /\ rail_consistent r)
    (call_failed tr).
Proof.
  unfold status_rail.
  eapply sat_step; [apply sat_select_page|]. cbv beta. intros h0 _ H0.
  read_step h1 w1 H1 W1. read_step h2 w2 H2 W2.
  read_step h3 w3 H3 W3. read_step h4 w4 H4 W4.
  read_step h5 w5 H5 W5. read_step h6 w6 H6 W6.
  read_step h7 w7 H7 W7. read_step h8 w8 H8 W8.
  rewrite (raw_to_voltage_word _ W1), (raw_to_voltage_word _ W2),
    (raw_to_power_word _ W4).
  cbn [lift bind]. rewrite derive_current_ok. cbn [lift bind].
  print_steps.
  unfold run_sat. cbn [run].
  split.
  - subst. rewrite !io_log_app. cbn [io_log filter is_io app].
    rewrite <- !app_assoc. reflexivity.
  - cbn [rail_page rail_name]. split; [reflexivity|]. split; [reflexivity|].
    unfold rail_consistent.
    cbn [vin_raw vout_raw iout_raw pout_raw vin vout pout iout faults].
    rewrite (raw_to_voltage_word _ W1), (raw_to_voltage_word _ W2),
      (raw_to_power_word _ W4), derive_current_ok.
    repeat (split; [assumption || reflexivity|]).
    exists w5, w6, w7, w8. auto.
Qed.

Lemma sat_status_rails (tr : Transport) (pages : list (Z * string)) :
  forall (start : float) (h : list event),
    run_sat tr (status_rails pages start) h
      (fun h' acc =>
         io_log h' = io_log h ++ flat_map (fun pn => rail_io (fst pn)) pages /\
         Forall rail_consistent (snd acc) /\
         map (fun r => (rail_page r, rail_name r)) (snd acc) = pages /\
         fst acc = sum_pout start (snd acc))
      (call_failed tr).
Proof.
  induction pages as [|[page name] rest IH]; intros start h.
  - unfold run_sat. cbn [status_rails run flat_map map snd fst sum_pout fold_left].
    rewrite app_nil_r. auto.
  - cbn [status_rails].
    eapply sat_step; [apply sat_status_rail|]. cbv beta.
    intros h1 r (Hlog & Hpage & Hname & Hr).
    eapply sat_step; [apply IH|]. cbv beta.
    intros h2 acc (Hlog2 & Hall & Hmap & Hsum).
    unfold run_sat. cbn [run fst snd flat_map map sum_pout fold_left].
    split; [|split; [|split]].
    + rewrite Hlog2, Hlog, <- app_assoc. reflexivity.
    + constructor; assumption.
    + now rewrite Hpage, Hname, Hmap.
    + exact Hsum.
Qed.

Lemma status_io_calls (pages : list (Z * string)) :
  filter is_bus_call (status_io pages) = status_calls pages.
Proof.
  unfold status_io, status_calls. cbn [filter is_bus_call]. f_equal.
  induction pages as [|[page name] rest IH]; [reflexivity|].
  cbn [flat_map fst]. rewrite filter_app, IH. reflexivity.
Qed.

(** The status display either completes, having made exactly the device
    accesses of [status_io] and with consistent locals, or stops at a
    failed device call: none of its own arithmetic raises. *)
Lemma sat_show_status (tr : Transport) (pages : list (Z * string)) (h : list event) :
  run_sat tr (show_status_of pages) h
    (fun h' rep =>
       io_log h' = io_log h ++ status_io pages /\ report_consistent pages rep)
    (call_failed tr).
Proof.
  unfold show_status_of. print_steps.
  read_step h1 w H1 W.
  rewrite (raw_to_power_word _ W). cbn [lift bind]. print_steps.
  eapply sat_step; [apply sat_status_rails|]. cbv beta.
  intros h2 acc (Hlog & Hall & Hmap & Hsum).
  rewrite efficiency_ok. cbn [lift bind]. print_steps.
  unfold run_sat. cbn [run]. split.
  - rewrite !io_log_app. cbn [io_log filter is_io app].
    rewrite !app_nil_r. fold (io_log h2). rewrite Hlog, H1, !io_log_app.
    cbn [io_log filter is_io app]. rewrite !app_nil_r.
    unfold status_io. rewrite <- !app_assoc. reflexivity.
  - unfold report_consistent.
    cbn [pin_raw pin_w rails total_pout loss eff].
    rewrite (raw_to_power_word _ W), efficiency_ok. auto 10.
Qed.

Lemma responsive_no_failure (tr : Transport) (h' : list event) (e : exn) :
  responsive tr -> ~ call_failed tr h' e.
Proof.
  intros [Hread Hcall] [(h0 & addr & reg & _ & [Hr | (d & Hd & Hlen & _)])
                       | (h0 & ev & _ & _ & Hc)].
  - destruct (Hread h0 addr reg 2) as (d & Hd & _). congruence.
  - destruct (Hread h0 addr reg 2) as (d' & Hd' & Hlen'). 
    rewrite Hd in Hd'. injection Hd' as <-. simpl in Hlen'. lia.
  - rewrite Hcall in Hc. discriminate.
Qed.

(** C8: on a transport that answers every call, one status display over
    any table of rails completes, and its register accesses are exactly:
    one read of the global input power (0x97), then for each rail in table
    order one page-select write followed by the reads of VIN 0x88, VOUT
    0x8B, IOUT 0x8C, POUT 0x96 and the status registers 0x79, 0x7B, 0x7C,
    0x7D. *)
Theorem C8_status_call_log (tr : Transport) (pages : list (Z * string))
  (h : list event) (Htr : responsive tr) :
  exists h' rep,
    run tr (show_status_of pages) h = (h', Ok rep) /\
    bus_log h' = bus_log h ++ status_calls pages.
Proof.
  pose proof (sat_show_status tr pages h) as Hsat. unfold run_sat in Hsat.
  destruct (run tr (show_status_of pages) h) as [h' [rep|e]].
  - exists h', rep. split; [reflexivity|].
    destruct Hsat as [Hio _].
    rewrite (bus_log_io h'), (bus_log_io h), Hio, filter_app, status_io_calls.
    reflexivity.
  - destruct (responsive_no_failure tr h' e Htr Hsat).
Qed.

Lemma sim_transport_responsive (regs : Z -> Z -> Z) : responsive (sim_transport regs).
Proof.
  split.
  - intros h addr reg n. eexists. split; [reflexivity|].
    unfold le_bytes. now rewrite length_map, length_seq.
  - reflexivity.
Qed.

Lemma C8_witness :
  exists h' rep,
    run (sim_transport demo_regs) (show_status_of PAGES) [] = (h', Ok rep) /\
    bus_log h' = bus_log [] ++ status_calls PAGES.
Proof.
  apply C8_status_call_log. apply sim_transport_responsive.
Defined.

(** ** Loss and efficiency *)

(** The power of a word is zero or above zero; it is never a NaN. *)
Lemma power_word_sign (raw : Z) (p : float) :
  is_word raw -> raw_to_power raw = Ok p ->
  ((p =? 0)%float = true -> p = 0%float) /\
  ((p <=? 0)%float = false -> (0 <? p)%float = true).
Proof.
  intros Hw Hp.
  destruct (word_shape raw Hw) as (v & p' & _ & Hp' & _ & Sp).
  rewrite Hp in Hp'. injection Hp' as <-.
  rewrite FloatAxioms.eqb_spec, FloatAxioms.leb_spec, FloatAxioms.ltb_spec,
    Prim2SF_zero, Sp.
  unfold scaled_word. destruct (Z.eqb_spec raw 0) as [->|Hne].
  - split; [|discriminate]. intros _.
    apply Prim2SF_inj. rewrite Sp. reflexivity.
  - cbv zeta. split; [discriminate | reflexivity].
Qed.

(** Subtracting from zero negates, except that 0.0 - 0.0 is 0.0. *)
Lemma zero_sub (t : float) :
  (0 - t = - t)%float \/ (t = 0%float /\ (0 - t)%float = 0%float).
Proof.
  assert (Hsub : Prim2SF (0 - t)%float = SF64sub (S754_zero false) (Prim2SF t))
    by (now rewrite FloatAxioms.sub_spec, Prim2SF_zero).
  pose proof (FloatAxioms.opp_spec t) as Hopp.
  destruct (Prim2SF t) as [s|s| |s m e] eqn:Ht.
  - destruct s.
    + left. apply Prim2SF_inj. rewrite Hsub, Hopp. reflexivity.
    + right. split; apply Prim2SF_inj; [rewrite Ht | rewrite Hsub]; reflexivity.
  - left. apply Prim2SF_inj. rewrite Hsub, Hopp. reflexivity.
  - left. apply Prim2SF_inj. rewrite Hsub, Hopp. reflexivity.
  - left. apply Prim2SF_inj. rewrite Hsub, Hopp. reflexivity.
Qed.

(** The loss on a quiet input is below zero when any power goes out. *)
Lemma zero_sub_negative (t : float) :
  (0 <? t)%float = true -> (0 - t <? 0)%float = true.
Proof.
  rewrite !FloatAxioms.ltb_spec, FloatAxioms.sub_spec, Prim2SF_zero.
  destruct (Prim2SF t) as [s|s| |s m e]; try destruct s; cbv; congruence.
Qed.

(** C4: in every report the status display produces, loss is pin minus
    totalOut with nothing clamped; efficiency is the integer 0 whenever
    pin <= 0 and totalOut / pin * 100 otherwise; when pin is 0 the loss is
    the negation of totalOut (0.0 when totalOut is 0.0) and is below zero
    as soon as totalOut is above zero. *)
Theorem C4_loss_and_efficiency (tr : Transport) (pages : list (Z * string))
  (h h' : list event) (rep : SystemReport)
  (Hrun : run tr (show_status_of pages) h = (h', Ok rep)) :
  loss rep = (pin_w rep - total_pout rep)%float /\
  ((pin_w rep <=? 0)%float = true -> eff rep = PyInt 0) /\
  ((pin_w rep <=? 0)%float = false ->
     eff rep = PyFloat (total_pout rep / pin_w rep * 100)%float) /\
  ((pin_w rep =? 0)%float = true ->
     (loss rep = (- total_pout rep)%float \/
      (total_pout rep = 0%float /\ loss rep = 0%float)) /\
     ((0 <? total_pout rep)%float = true -> (loss rep <? 0)%float = true)).
Proof.
  pose proof (sat_show_status tr pages h) as Hsat. unfold run_sat in Hsat.
  rewrite Hrun in Hsat.
  destruct Hsat as (_ & Hw & Hpin & _ & _ & _ & Hloss & Heff).
  destruct (power_word_sign _ _ Hw Hpin) as [Hzero Hpos].
  rewrite efficiency_ok in Heff. injection Heff as Heff.
  split; [exact Hloss|]. split; [|split].
  - intros Hle. now rewrite (nonpos_not_pos _ Hle) in Heff.
  - intros Hgt. now rewrite (Hpos Hgt) in Heff.
  - intros Hz. rewrite Hloss, (Hzero Hz). split.
    + apply zero_sub.
    + apply zero_sub_negative.
Qed.

Lemma C4_witness :
  loss quiet_report = (pin_w quiet_report - total_pout quiet_report)%float /\
  eff quiet_report = PyInt 0 /\
  (loss quiet_report <? 0)%float = true.
Proof.
  assert (Hrun : run (sim_transport quiet_input_regs) (show_status_of PAGES) []
                 = (fst (run (sim_transport quiet_input_regs) (show_status_of PAGES) []),
                    Ok quiet_report))
    by (vm_compute; reflexivity).
  pose proof (C4_loss_and_efficiency _ _ _ _ _ Hrun) as (Hloss & Heff & _ & Hzero).
  split; [exact Hloss|]. split.
  - apply Heff. vm_compute. reflexivity.
  - apply Hzero; vm_compute; reflexivity.
Defined.

(** * Further properties of the fault decoder *)

Lemma nodupb_NoDup (l : list string) : nodupb l = true -> NoDup l.
Proof.
  induction l as [|x rest IH]; intros H; [constructor|].
  simpl in H. apply andb_true_iff in H. destruct H as [Hx Hrest].
  constructor; [|now apply IH].
  intros Hin. apply negb_true_iff in Hx.
  assert (Hex : existsb (String.eqb x) rest = true).
  { apply existsb_exists. exists x. split; [exact Hin | apply String.eqb_refl]. }
  congruence.
Qed.

(** Selecting rows of a table whose names are distinct gives distinct
    names. *)
Lemma selected_names_distinct (rows : list (status_reg * Z * string))
  (chosen : status_reg * Z * string -> bool) :
  nodupb (map row_name rows) = true ->
  NoDup (map row_name (filter chosen rows)).
Proof.
  intros Hb. apply nodupb_NoDup in Hb.
  induction rows as [|row rows IH]; [constructor|].
  cbn [map] in Hb. apply NoDup_cons_iff in Hb. destruct Hb as [Hfresh Hrest].
  cbn [filter]. destruct (chosen row); [|exact (IH Hrest)].
  cbn [map]. apply NoDup_cons; [|exact (IH Hrest)].
  intros Hin. apply Hfresh.
  apply in_map_iff in Hin. destruct Hin as (other & Hname & Hsel).
  rewrite <- Hname. apply in_map. apply filter_In in Hsel. apply Hsel.
Qed.

Lemma decode_NoDup_hits (sw si sin st : Z) :
  NoDup (decode_faults sw si sin st) <-> NoDup (table_hits sw si sin st).
Proof.
  rewrite decode_faults_table.
  destruct (table_hits sw si sin st); [|tauto].
  split; intros _; [constructor | apply nodupb_NoDup; reflexivity].
Qed.

(** The rows before, between and after the two rows named TEMP_FAULT. *)
Lemma fault_table_split :
  fault_table =
  firstn 3 fault_table ++ [(STATUS_WORD, 12, "TEMP_FAULT")] ++
  firstn 7 (skipn 4 fault_table) ++ [(STATUS_TEMP, 1, "TEMP_FAULT")].
Proof. reflexivity. Qed.

(** X1: for all status words the decoder returns the names of the table
    rows whose bit is set, in the order of the source lines, and the
    sentinel alone when no row is hit. *)
Theorem X1_decode_in_table_order (sw si sin st : Z) :
  decode_faults sw si sin st =
  match map row_name (filter (row_set sw si sin st) fault_table) with
  | [] => ["NO_FAULTS"]
  | hits => hits
  end.
Proof. apply decode_faults_table. Qed.

(** X2: the decoder's result has a repeated name exactly when bit 12 of
    the status word and bit 1 of the temperature status are both set. *)
Theorem X2_decode_duplicate_iff (sw si sin st : Z) :
  NoDup (decode_faults sw si sin st) <->
  ~ (Z.testbit sw 12 = true /\ Z.testbit st 1 = true).
Proof.
  rewrite decode_NoDup_hits. unfold table_hits.
  set (p := row_set sw si sin st).
  set (A := firstn 3 fault_table). set (B := firstn 7 (skipn 4 fault_table)).
  assert (E12 : p (STATUS_WORD, 12, "TEMP_FAULT") = Z.testbit sw 12) by reflexivity.
  assert (E1 : p (STATUS_TEMP, 1, "TEMP_FAULT") = Z.testbit st 1) by reflexivity.
  assert (Hsplit : filter p fault_table
                   = filter p A ++ filter p [(STATUS_WORD, 12, "TEMP_FAULT")] ++
                     filter p B ++ filter p [(STATUS_TEMP, 1, "TEMP_FAULT")]).
  { rewrite fault_table_split at 1. now rewrite !filter_app. }
  rewrite Hsplit.
  assert (F12 : filter p [(STATUS_WORD, 12, "TEMP_FAULT")]
                = if Z.testbit sw 12 then [(STATUS_WORD, 12, "TEMP_FAULT")] else [])
    by (cbn [filter]; now rewrite E12).
  assert (F1 : filter p [(STATUS_TEMP, 1, "TEMP_FAULT")]
               = if Z.testbit st 1 then [(STATUS_TEMP, 1, "TEMP_FAULT")] else [])
    by (cbn [filter]; now rewrite E1).
  destruct (Z.testbit sw 12); destruct (Z.testbit st 1).
  - split; [intros Hnd; exfalso | intros H; exfalso; apply H; auto].
    rewrite F12, F1, !map_app in Hnd. cbn [map row_name snd app] in Hnd.
    apply NoDup_remove_2 in Hnd. apply Hnd.
    apply in_or_app. right. apply in_or_app. right. now left.
  - split; [intros _ [_ H]; discriminate | intros _].
    rewrite F1, app_nil_r, <- !filter_app.
    apply selected_names_distinct. reflexivity.
  - split; [intros _ [H _]; discriminate | intros _].
    rewrite F12. cbn [app]. rewrite <- !filter_app.
    apply selected_names_distinct. reflexivity.
  - split; [intros _ [H _]; discriminate | intros _].
    rewrite F1, app_nil_r, <- !filter_app.
    apply selected_names_distinct. reflexivity.
Qed.

Lemma testbit_mask (x mask bit : Z) :
  Z.testbit mask bit = true -> Z.testbit (Z.land x mask) bit = Z.testbit x bit.
Proof. intros H. rewrite Z.land_spec, H. apply andb_true_r. Qed.

(** X3: the decoder looks at the twelve listed bits only: clearing every
    other bit of the four status words does not change its result. *)
Theorem X3_decode_ignores_other_bits (sw si sin st : Z) :
  decode_faults (Z.land sw 0xF0C0) (Z.land si 0x03) (Z.land sin 0x03) (Z.land st 0x03)
  = decode_faults sw si sin st.
Proof.
  rewrite !decode_faults_table. unfold table_hits.
  replace (filter (row_set (Z.land sw 0xF0C0) (Z.land si 0x03)
                     (Z.land sin 0x03) (Z.land st 0x03)) fault_table)
    with (filter (row_set sw si sin st) fault_table); [reflexivity|].
  apply filter_ext_in. intros row Hin. simpl in Hin.
  repeat (destruct Hin as [<-|Hin];
          [cbn [row_set]; symmetry; apply testbit_mask; reflexivity|]).
  destruct Hin.
Qed.

Lemma filter_nil_all {A : Type} (p : A -> bool) (l : list A) :
  filter p l = [] -> forall x, In x l -> p x = false.
Proof.
  induction l as [|a l IH]; intros H x Hin; [destruct Hin|].
  simpl in H. destruct (p a) eqn:Ha; [discriminate|].
  destruct Hin as [<-|Hin]; [exact Ha | now apply IH].
Qed.

(** X4: the sentinel is in the result exactly when no listed bit is set,
    and then it is the whole result; no result is longer than the table. *)
Theorem X4_sentinel_iff_clear (sw si sin st : Z) :
  (In "NO_FAULTS" (decode_faults sw si sin st) <-> listed_bits_clear sw si sin st) /\
  (In "NO_FAULTS" (decode_faults sw si sin st) ->
   decode_faults sw si sin st = ["NO_FAULTS"]) /\
  (1 <= List.length (decode_faults sw si sin st) <= 12)%nat.
Proof.
  assert (Hclear : In "NO_FAULTS" (decode_faults sw si sin st) ->
                   table_hits sw si sin st = []).
  { rewrite decode_faults_table.
    destruct (table_hits sw si sin st) as [|x l] eqn:Hhits; [reflexivity|].
    intros Hin. exfalso. rewrite <- Hhits in Hin. unfold table_hits in Hin.
    apply in_map_iff in Hin. destruct Hin as (row & Hname & Hin).
    apply filter_In in Hin. destruct Hin as [Hin _]. simpl in Hin.
    repeat (destruct Hin as [<-|Hin]; [discriminate|]). destruct Hin. }
  split; [split|split].
  - intros Hin row Hrow. apply Hclear in Hin. unfold table_hits in Hin.
    apply map_eq_nil in Hin. now apply (filter_nil_all _ _ Hin).
  - intros H. rewrite decode_faults_table, (listed_bits_clear_hits _ _ _ _ H).
    now left.
  - intros Hin. now rewrite decode_faults_table, (Hclear Hin).
  - rewrite decode_faults_table. unfold table_hits.
    pose proof (filter_length_le (row_set sw si sin st) fault_table) as Hle.
    change (List.length fault_table) with 12%nat in Hle.
    rewrite <- (length_map row_name) in Hle.
    destruct (map row_name _); simpl in *; lia.
Qed.

(** * Further properties of the register helpers *)

Lemma byte_val_of_Z (x : Z) : byte_val (byte_of_Z x) = x mod 256.
Proof.
  unfold byte_val, byte_of_Z. rewrite land_FF.
  pose proof (Z.mod_pos_bound x 256 ltac:(lia)) as Hr.
  destruct (Byte.of_N (Z.to_N (x mod 256))) as [b|] eqn:Hb.
  - apply Byte.to_of_N in Hb. rewrite Hb. apply Z2N.id. lia.
  - apply Byte.of_N_None_iff in Hb. lia.
Qed.

Lemma run_read_word_ok (tr : Transport) (addr reg : Z) (h : list event)
  (b0 b1 : byte) (rest : list byte) :
  t_read tr h addr reg 2 = Ok (b0 :: b1 :: rest) ->
  run tr (read_word addr reg) h
  = (h ++ [EvRead addr reg 2], Ok (byte_val b0 + 256 * byte_val b1)).
Proof.
  intros Hd. unfold read_word, i2c_read. cbn [bind run]. rewrite Hd.
  cbn [index nth_error lift bind run]. now rewrite word_of_bytes.
Qed.

(** X5: whenever [read_word] returns, it has made exactly one read of two
    bytes and its value is the 16-bit word byte0 + 256 * byte1 of the
    answer; bytes after the second are ignored. *)
Theorem X5_read_word_value (tr : Transport) (addr reg : Z) (h h' : list event) (w : Z)
  (Hrun : run tr (read_word addr reg) h = (h', Ok w)) :
  h' = h ++ [EvRead addr reg 2] /\
  0 <= w < 65536 /\
  exists b0 b1 rest,
    t_read tr h addr reg 2 = Ok (b0 :: b1 :: rest) /\
    w = byte_val b0 + 256 * byte_val b1.
Proof.
  unfold read_word, i2c_read in Hrun. simpl in Hrun.
  destruct (t_read tr h addr reg 2) as [d|e]; [|discriminate].
  destruct d as [|b0 [|b1 rest]]; simpl in Hrun; try discriminate.
  injection Hrun as <- <-.
  split; [reflexivity|]. split; [apply word_of_bytes_range|].
  exists b0, b1, rest. split; [reflexivity | apply word_of_bytes].
Qed.

Lemma X5_witness :
  fst (run (sim_transport demo_regs) (read_word MP5922_ADDR 0x97) [])
  = [] ++ [EvRead MP5922_ADDR 0x97 2].
Proof.
  exact (proj1 (X5_read_word_value (sim_transport demo_regs) MP5922_ADDR 0x97
                  [] _ 800 eq_refl)).
Defined.

(** X6: reading back the two bytes [write_word] sends for any integer
    gives that integer modulo 2^16: a value in 0..65535 survives the round
    trip, a negative or larger one comes back wrapped. *)
Theorem X6_write_read_round_trip (tr : Transport) (addr reg value : Z)
  (h1 h2 : list event)
  (Hback : t_read tr h2 addr reg 2
           = Ok (map byte_of_Z [Z.land value 0xFF; Z.land (Z.shiftr value 8) 0xFF])) :
  fst (run tr (write_word addr reg value) h1)
  = h1 ++ [EvWrite addr reg [Z.land value 0xFF; Z.land (Z.shiftr value 8) 0xFF]] /\
  run tr (read_word addr reg) h2 = (h2 ++ [EvRead addr reg 2], Ok (value mod 65536)).
Proof.
  split.
  - unfold write_word, i2c_write. simpl. destruct (t_call tr h1 _); reflexivity.
  - cbn [map] in Hback. rewrite (run_read_word_ok _ _ _ _ _ _ _ Hback).
    rewrite !byte_val_of_Z, lo_byte, hi_byte.
    pose proof (Z.mod_pos_bound value 65536 ltac:(lia)) as Hw.
    pose proof (Z.div_mod (value mod 65536) 256 ltac:(lia)) as Hsplit.
    pose proof (Z.mod_pos_bound (value mod 65536) 256 ltac:(lia)) as Hlo.
    assert (Hhi : 0 <= value mod 65536 / 256 < 256).
    { split; [apply Z.div_le_lower_bound | apply Z.div_lt_upper_bound]; lia. }
    rewrite (Z.mod_small (value mod 65536 mod 256)) by lia.
    rewrite (Z.mod_small (value mod 65536 / 256)) by lia.
    do 2 f_equal. lia.
Qed.

Lemma X6_witness :
  run (sim_transport (fun _ _ => -2)) (read_word MP5922_ADDR 0xE1) []
  = ([] ++ [EvRead MP5922_ADDR 0xE1 2], Ok 65534).
Proof.
  exact (proj2 (X6_write_read_round_trip (sim_transport (fun _ _ => -2))
                  MP5922_ADDR 0xE1 (-2) [] [] eq_refl)).
Defined.

(** X7: rail indices are taken modulo 256: switching index page + 256 * k
    is the same run as switching index page, so index 256 switches rail 0. *)
Theorem X7_rail_index_wraps (tr : Transport) (page k : Z) (h : list event) :
  run tr (rail_enable (page + 256 * k)) h = run tr (rail_enable page) h /\
  run tr (rail_disable (page + 256 * k)) h = run tr (rail_disable page) h.
Proof.
  assert (Hm : Z.land (page + 256 * k) 0xFF = Z.land page 0xFF).
  { rewrite !land_FF. rewrite Z.mul_comm. apply Z.mod_add. lia. }
  unfold rail_enable, rail_disable, select_page. now rewrite Hm.
Qed.

(** X8: a rail is never switched on an unselected page: when the driver
    refuses the page-select write, the rail switch stops there with the
    driver's exception and the operation register is not written. *)
Theorem X8_no_switch_without_page (tr : Transport) (page : Z) (h : list event) (e : exn)
  (Hfail : t_call tr h (EvWrite MP5922_ADDR 0x00 [Z.land page 0xFF]) = Raise e) :
  run tr (rail_enable page) h
  = (h ++ [EvWrite MP5922_ADDR 0x00 [Z.land page 0xFF]], Raise e) /\
  run tr (rail_disable page) h
  = (h ++ [EvWrite MP5922_ADDR 0x00 [Z.land page 0xFF]], Raise e).
Proof.
  unfold rail_enable, rail_disable, select_page, i2c_write. simpl.
  now rewrite Hfail.
Qed.

Lemma X8_witness :
  run dead_transport (rail_enable 1) []
  = ([] ++ [EvWrite MP5922_ADDR 0x00 [Z.land 1 0xFF]], Raise TransportError).
Proof.
  exact (proj1 (X8_no_switch_without_page dead_transport 1 [] TransportError eq_refl)).
Defined.

(** * Further properties of the status display *)

Lemma only_emits_bind {A B : Type} (P : event -> Prop) (p : prog A) (f : A -> prog B) :
  only_emits P p -> (forall a, only_emits P (f a)) -> only_emits P (bind p f).
Proof.
  induction p as [a|e|addr reg n k IH|ev k IH]; intros Hp Hf; simpl in *.
  - apply Hf.
  - exact I.
  - destruct Hp as [Hev Hk]. split; [exact Hev|]. intros d. now apply IH.
  - destruct Hp as [Hev Hk]. split; [exact Hev|]. now apply IH.
Qed.

Lemma only_emits_run {A : Type} (P : event -> Prop) (tr : Transport) (p : prog A) :
  only_emits P p ->
  forall h, exists t, fst (run tr p h) = h ++ t /\ Forall P t.
Proof.
  induction p as [a|e|addr reg n k IH|ev k IH]; intros Hp h; simpl in *.
  - exists []. now rewrite app_nil_r.
  - exists []. now rewrite app_nil_r.
  - destruct Hp as [Hev Hk].
    destruct (t_read tr h addr reg n) as [d|e].
    + destruct (IH d (Hk d) (h ++ [EvRead addr reg n])) as (t & Ht & HP).
      exists (EvRead addr reg n :: t). rewrite Ht, <- app_assoc. auto.
    + exists [EvRead addr reg n]. auto.
  - destruct Hp as [Hev Hk].
    assert (Hrest : exists t, fst (run tr k (h ++ [ev])) = h ++ t /\ Forall P t).
    { destruct (IH Hk (h ++ [ev])) as (t & Ht & HP).
      exists (ev :: t). rewrite Ht, <- app_assoc. auto. }
    destruct (is_device_call ev); [|exact Hrest].
    destruct (t_call tr h ev); [exact Hrest|].
    exists [ev]. auto.
Qed.

Lemma only_emits_lift {A : Type} (P : event -> Prop) (r : result A) :
  only_emits P (lift r).
Proof. destruct r; exact I. Qed.

Lemma only_emits_read_word (P : event -> Prop) (addr reg : Z) :
  P (EvRead addr reg 2) -> only_emits P (read_word addr reg).
Proof.
  intros HP. unfold read_word, i2c_read. simpl. split; [exact HP|].
  intros d. apply only_emits_bind; [apply only_emits_lift|]. intros d0.
  apply only_emits_bind; [apply only_emits_lift|]. intros d1. exact I.
Qed.

Ltac emits_read :=
  apply only_emits_bind; [apply only_emits_read_word; simpl; auto|]; intros ?.
Ltac emits_lift :=
  apply only_emits_bind; [apply only_emits_lift|]; intros ?.

Lemma status_rail_events (page : Z) (name : string) :
  only_emits status_event (status_rail page name).
Proof.
  unfold status_rail.
  apply only_emits_bind; [simpl; auto|]. intros _.
  do 8 emits_read. do 4 emits_lift.
  simpl. tauto.
Qed.

Lemma show_status_events (pages : list (Z * string)) :
  only_emits status_event (show_status_of pages).
Proof.
  unfold show_status_of.
  apply only_emits_bind; [simpl; auto|]. intros _.
  emits_read. emits_lift.
  apply only_emits_bind; [simpl; auto|]. intros _.
  apply only_emits_bind; [simpl; auto|]. intros _.
  apply only_emits_bind.
  - generalize 0%float.
    induction pages as [|[page name] rest IH]; intros start; [exact I|].
    cbn [status_rails].
    apply only_emits_bind; [apply status_rail_events|]. intros r.
    apply only_emits_bind; [apply IH|]. intros acc. exact I.
  - intros acc. emits_lift. simpl. tauto.
Qed.

(** X9: a status display is read-only.  On every transport, whether it
    completes or fails midway, everything it does is a two-byte read from
    the device, a one-byte write to the page register 0x00, a wait or a
    print: it never writes the operation register, the password or the
    clear-faults command, and never opens or closes the bridge. *)
Theorem X9_status_is_read_only (tr : Transport) (pages : list (Z * string))
  (h : list event) :
  exists t,
    fst (run tr (show_status_of pages) h) = h ++ t /\
    Forall status_event t /\
    (forall addr reg data, In (EvWrite addr reg data) t -> reg = 0x00).
Proof.
  destruct (only_emits_run status_event tr _ (show_status_events pages) h)
    as (t & Ht & HP).
  exists t. split; [exact Ht|]. split; [exact HP|].
  intros addr reg data Hin.
  rewrite Forall_forall in HP. specialize (HP _ Hin). simpl in HP.
  destruct data as [|x [|y rest]]; tauto.
Qed.

(** X10: the status display's own arithmetic never raises.  Whenever it
    ends in an exception, that exception is the failure of the last device
    call in the trace: the driver raised it, or a read was answered with
    fewer than two bytes (IndexError).  No ZeroDivisionError or
    OverflowError can come from the conversions, the derived current or
    the efficiency. *)
Theorem X10_status_fails_only_on_device (tr : Transport) (pages : list (Z * string))
  (h h' : list event) (e : exn)
  (Hrun : run tr (show_status_of pages) h = (h', Raise e)) :
  call_failed tr h' e.
Proof.
  pose proof (sat_show_status tr pages h) as Hsat. unfold run_sat in Hsat.
  now rewrite Hrun in Hsat.
Qed.

Lemma X10_witness :
  call_failed short_transport
    (fst (run short_transport (show_status_of PAGES) [])) IndexError.
Proof.
  apply (X10_status_fails_only_on_device short_transport PAGES []).
  vm_compute. reflexivity.
Defined.

Lemma rail_exact_values (r : RailReport) :
  rail_consistent r ->
  float_is (vin r) (vin_raw r # 64) /\ float_is (vout r) (vout_raw r # 64) /\
  float_is (pout r) (pout_raw r # 8) /\
  iout r = (if (0 <? vout r)%float then (pout r / vout r)%float else 0%float) /\
  faults r <> [].
Proof.
  intros (W1 & W2 & _ & W4 & Hvin & Hvout & Hpout & Hiout & sw & si & sin & st & Hf).
  assert (H53 : 65536 < 2 ^ 53) by reflexivity. unfold is_word in *.
  destruct (word_shape _ W1) as (v1 & _ & Hv1 & _ & S1 & _).
  destruct (word_shape _ W2) as (v2 & _ & Hv2 & _ & S2 & _).
  destruct (word_shape _ W4) as (_ & p4 & _ & Hp4 & _ & S4).
  rewrite Hvin in Hv1. rewrite Hvout in Hv2. rewrite Hpout in Hp4.
  injection Hv1 as <-. injection Hv2 as <-. injection Hp4 as <-.
  rewrite derive_current_ok in Hiout. injection Hiout as Hiout.
  unfold float_is, float_to_Q. rewrite S1, S2, S4.
  split; [apply (scaled_word_Q _ 6); lia|].
  split; [apply (scaled_word_Q _ 6); lia|].
  split; [apply (scaled_word_Q _ 3); lia|].
  split; [now symmetry|].
  destruct Hf as (_ & _ & _ & _ & ->). apply decode_faults_nonempty.
Qed.

(** X11: in every report of a completed status display the rails are the
    table's pages with their names, in table order; each rail's voltages
    and power are exactly raw / 64 and raw / 8; its current is derived
    from that power and voltage (0.0 when the voltage is not above zero)
    and never from the raw current register; its fault list is not empty;
    and the total is the left-to-right float sum of the rail powers from
    0.0. *)
Theorem X11_report_contents (tr : Transport) (pages : list (Z * string))
  (h h' : list event) (rep : SystemReport)
  (Hrun : run tr (show_status_of pages) h = (h', Ok rep)) :
  map (fun r => (rail_page r, rail_name r)) (rails rep) = pages /\
  total_pout rep = fold_left (fun t r => (t + pout r)%float) (rails rep) 0%float /\
  float_is (pin_w rep) (pin_raw rep # 8) /\
  Forall (fun r =>
            float_is (vin r) (vin_raw r # 64) /\ float_is (vout r) (vout_raw r # 64) /\
            float_is (pout r) (pout_raw r # 8) /\
            iout r = (if (0 <? vout r)%float then (pout r / vout r)%float
                      else 0%float) /\
            faults r <> [])
         (rails rep).
Proof.
  pose proof (sat_show_status tr pages h) as Hsat. unfold run_sat in Hsat.
  rewrite Hrun in Hsat.
  destruct Hsat as (_ & Hw & Hpin & Hall & Hmap & Hsum & _ & _).
  split; [exact Hmap|]. split; [exact Hsum|]. split.
  - assert (H53 : 65536 < 2 ^ 53) by reflexivity. unfold is_word in Hw.
    destruct (word_shape _ Hw) as (_ & p & _ & Hp & _ & Sp).
    rewrite Hpin in Hp. injection Hp as <-.
    unfold float_is, float_to_Q. rewrite Sp. apply (scaled_word_Q _ 3). lia.
  - eapply Forall_impl; [|exact Hall]. apply rail_exact_values.
Qed.

Lemma X11_witness :
  map (fun r => (rail_page r, rail_name r)) (rails quiet_report) = PAGES.
Proof.
  assert (Hrun : run (sim_transport quiet_input_regs) (show_status_of PAGES) []
                 = (fst (run (sim_transport quiet_input_regs) (show_status_of PAGES) []),
                    Ok quiet_report))
    by (vm_compute; reflexivity).
  exact (proj1 (X11_report_contents _ _ _ _ _ Hrun)).
Defined.

(** X12: on a transport that answers every call, the device accesses and
    waits of a status display are exactly: the read of 0x97, then per rail
    the page-select write, the 10 ms wait, and only then the eight reads.
    Every page select is followed by its settle delay before the next
    register access. *)
Theorem X12_status_waits_after_page_select (tr : Transport)
  (pages : list (Z * string)) (h : list event) (Htr : responsive tr) :
  io_log (fst (run tr (show_status_of pages) h)) = io_log h ++ status_io pages.
Proof.
  pose proof (sat_show_status tr pages h) as Hsat. unfold run_sat in Hsat.
  destruct (run tr (show_status_of pages) h) as [h' [rep|e]].
  - apply Hsat.
  - destruct (responsive_no_failure tr h' e Htr Hsat).
Qed.

Lemma X12_witness :
  io_log (fst (run (sim_transport demo_regs) (show_status_of PAGES) []))
  = io_log [] ++ status_io PAGES.
Proof.
  apply X12_status_waits_after_page_select. apply sim_transport_responsive.
Defined.

(** X13: the efficiency never raises, whatever the two floats: a NaN
    input power, like a zero or negative one, gives the integer 0. *)
Theorem X13_efficiency_total (total pin : float) :
  (exists v, efficiency total pin = Ok v) /\
  (is_nan pin = true -> efficiency total pin = Ok (PyInt 0)) /\
  ((pin <=? 0)%float = true -> efficiency total pin = Ok (PyInt 0)).
Proof.
  rewrite efficiency_ok. split; [eexists; reflexivity|]. split.
  - intros Hnan.
    assert (Hlt : (0 <? pin)%float = false).
    { rewrite FloatAxioms.ltb_spec. unfold Prim2SF at 2. rewrite Hnan. reflexivity. }
    now rewrite Hlt.
  - intros Hle. now rewrite (nonpos_not_pos _ Hle).
Qed.

Lemma X13_witness : efficiency 5 nan = Ok (PyInt 0).
Proof. exact (proj1 (proj2 (X13_efficiency_total 5 nan)) eq_refl). Defined.

(** * Properties of the command line *)

Lemma then_close_base (tr : Transport) (g : prog unit) :
  then_close tr (g ;; usb_close) g.
Proof.
  intros h. rewrite run_bind. destruct (run tr g h) as [h1 [[]|e]]; reflexivity.
Qed.

Lemma then_close_bind {A : Type} (tr : Transport) (p : prog A) (f g : A -> prog unit) :
  (forall a, then_close tr (f a) (g a)) -> then_close tr (bind p f) (bind p g).
Proof.
  intros H h. rewrite !run_bind.
  destruct (run tr p h) as [h1 [a|e]]; [apply H | reflexivity].
Qed.

Lemma main_then_close (tr : Transport) (py_int : string -> option Z) (argv : list string) :
  then_close tr (main py_int argv) (before_close py_int argv).
Proof.
  unfold main, before_close.
  do 3 (apply then_close_bind; intros _).
  destruct (List.length argv <? 2)%nat.
  - apply then_close_base.
  - apply then_close_bind. intros cmd. apply then_close_base.
Qed.

Lemma only_emits_impl {A : Type} (P Q : event -> Prop) (p : prog A) :
  (forall ev, P ev -> Q ev) -> only_emits P p -> only_emits Q p.
Proof.
  intros HPQ. induction p as [a|e|addr reg n k IH|ev k IH]; simpl; auto.
  - intros [Hev Hk]. split; [auto|]. intros d. now apply IH.
  - intros [Hev Hk]. split; auto.
Qed.

Lemma only_emits_for_each {A : Type} (P : event -> Prop) (l : list A)
  (body : A -> prog unit) :
  (forall x, only_emits P (body x)) -> only_emits P (for_each l body).
Proof.
  intros Hbody. induction l as [|x rest IH]; [exact I|].
  cbn [for_each]. apply only_emits_bind; [apply Hbody | intros _; exact IH].
Qed.

Lemma before_close_never_closes (py_int : string -> option Z) (argv : list string) :
  only_emits (fun ev => ev <> EvClose) (before_close py_int argv).
Proof.
  unfold before_close.
  apply only_emits_bind; [simpl; split; [discriminate | exact I]|]. intros _.
  apply only_emits_bind; [simpl; split; [discriminate | exact I]|]. intros _.
  apply only_emits_bind; [simpl; repeat split; discriminate|]. intros _.
  destruct (List.length argv <? 2)%nat; [simpl; split; [discriminate | exact I]|].
  apply only_emits_bind; [apply only_emits_lift|]. intros cmd.
  unfold dispatch.
  repeat match goal with
         | |- only_emits _ (if ?c then _ else _) => destruct c
         end.
  - apply only_emits_bind; [|intros; exact I].
    apply only_emits_impl with (P := status_event); [|apply show_status_events].
    intros ev Hev ->. exact Hev.
  - apply only_emits_bind; [apply only_emits_lift|]. intros arg.
    apply only_emits_bind; [apply only_emits_lift|]. intros page.
    simpl. repeat split; discriminate.
  - apply only_emits_bind; [apply only_emits_lift|]. intros arg.
    apply only_emits_bind; [apply only_emits_lift|]. intros page.
    simpl. repeat split; discriminate.
  - apply only_emits_for_each. intros page. simpl. repeat split; discriminate.
  - apply only_emits_for_each. intros page. simpl. repeat split; discriminate.
  - simpl. repeat split; discriminate.
  - simpl. repeat split; discriminate.
Qed.

Lemma Forall_not_In {A : Type} (x : A) (l : list A) :
  Forall (fun y => y <> x) l -> ~ In x l.
Proof.
  intros H Hin. rewrite Forall_forall in H. now apply (H x Hin).
Qed.

(** X14: [main] closes the bridge at most once, as the very last thing it
    does, and exactly once when it returns.  When a command raises (a
    missing or malformed page argument, a device failure) the close is
    never reached: the bridge stays open. *)
Theorem X14_close_discipline (tr : Transport) (py_int : string -> option Z)
  (argv : list string) (h : list event) :
  exists t,
    fst (run tr (main py_int argv) h) = h ++ t /\
    match snd (run tr (main py_int argv) h) with
    | Ok _ => exists t0, t = t0 ++ [EvClose] /\ ~ In EvClose t0
    | Raise e =>
        ~ In EvClose t \/
        (exists t0, t = t0 ++ [EvClose] /\ ~ In EvClose t0 /\
                    t_call tr (h ++ t0) EvClose = Raise e)
    end.
Proof.
  rewrite (main_then_close tr py_int argv h).
  destruct (only_emits_run _ tr _ (before_close_never_closes py_int argv) h)
    as (t0 & Ht0 & Hno).
  apply Forall_not_In in Hno.
  destruct (run tr (before_close py_int argv) h) as [h1 [[]|e]]; simpl in Ht0; subst h1.
  - unfold usb_close. simpl.
    destruct (t_call tr (h ++ t0) EvClose) as [u|e] eqn:Hc; simpl.
    + exists (t0 ++ [EvClose]). rewrite app_assoc. split; [reflexivity|].
      exists t0. auto.
    + exists (t0 ++ [EvClose]). rewrite app_assoc. split; [reflexivity|].
      right. exists t0. auto.
  - exists t0. simpl. auto.
Qed.

Lemma run_emit_ok {A : Type} (tr : Transport) (ev : event) (k : prog A) (h : list event) :
  accepts_calls tr -> run tr (Emit ev k) h = run tr k (h ++ [ev]).
Proof.
  intros Hacc. simpl. rewrite Hacc. now destruct (is_device_call ev).
Qed.

Lemma run_session_start {A : Type} (tr : Transport) (rest : prog A) (h : list event) :
  accepts_calls tr ->
  run tr (usb_open PORT ;; usb_setup_i2c I2C_SPEED_KHZ ;; unlock_mp5922 ;; rest) h
  = run tr rest (h ++ session_start).
Proof.
  intros Hacc.
  unfold usb_open, usb_setup_i2c, unlock_mp5922, write_word, i2c_write, sleep.
  cbn [bind]. rewrite !(run_emit_ok tr _ _ _ Hacc), <- !app_assoc. reflexivity.
Qed.

(** X15: every invocation of [main], whatever its arguments, first opens
    the port, sets the I2C clock to 100 kHz and writes the password 0x82C2
    to register 0xE1 (low byte first) followed by the 20 ms wait: the
    device is unlocked even when only the usage text is shown. *)
Theorem X15_session_start (tr : Transport) (py_int : string -> option Z)
  (argv : list string) (h : list event) (Hacc : accepts_calls tr) :
  exists t, fst (run tr (main py_int argv) h) = h ++ session_start ++ t.
Proof.
  unfold main. rewrite (run_session_start tr _ h Hacc).
  destruct (run_extends tr
              (if (List.length argv <? 2)%nat
               then print [Lit usage] ;; usb_close
               else cmd <- lift (index argv 1) ;; dispatch py_int argv cmd ;; usb_close)
              (h ++ session_start)) as [t Ht].
  exists t. now rewrite Ht, app_assoc.
Qed.

Lemma X15_witness :
  exists t,
    fst (run (sim_transport demo_regs) (main decimal_int ["efuse"]) [])
    = [] ++ session_start ++ t.
Proof.
  apply X15_session_start. intros h ev. reflexivity.
Defined.

Lemma run_switch (tr : Transport) (page ctl : Z) (h : list event) :
  accepts_calls tr ->
  run tr (select_page page ;; write_byte MP5922_ADDR 0x01 ctl) h
  = (h ++ switch_io (ctl mod 256) page, Ok tt).
Proof. intros Hacc. apply run_rail_switch, Hacc. Qed.

(** X16: the usage path and the unknown-command path touch the device
    only to unlock it.  With fewer than two arguments [main] prints the
    usage text; with a command word that is not one of the six (the
    comparison is case-sensitive) it prints "Unknown command"; either way
    it then closes the bridge and returns. *)
Theorem X16_usage_and_unknown (tr : Transport) (py_int : string -> option Z)
  (argv : list string) (h : list event) (Hacc : accepts_calls tr) :
  ((List.length argv < 2)%nat ->
   run tr (main py_int argv) h
   = (h ++ session_start ++ [EvPrint [Lit usage]; EvClose], Ok tt)) /\
  (forall prog cmd rest,
      argv = prog :: cmd :: rest -> ~ In cmd known_commands ->
      run tr (main py_int argv) h
      = (h ++ session_start ++ [EvPrint [Lit "Unknown command"]; EvClose], Ok tt)).
Proof.
  split.
  - intros Hlen. unfold main. rewrite (run_session_start tr _ h Hacc).
    apply Nat.ltb_lt in Hlen. rewrite Hlen.
    unfold print, usb_close. cbn [bind].
    rewrite !(run_emit_ok tr _ _ _ Hacc), <- !app_assoc. reflexivity.
  - intros prog cmd rest -> Hcmd. unfold main.
    rewrite (run_session_start tr _ h Hacc).
    cbn [List.length Nat.ltb Nat.leb index nth_error lift bind].
    unfold dispatch.
    repeat match goal with
           | |- context [String.eqb cmd ?s] =>
               destruct (String.eqb_spec cmd s) as [->|_];
               [exfalso; apply Hcmd; simpl; tauto|]
           end.
    unfold print, usb_close. cbn [bind].
    rewrite !(run_emit_ok tr _ _ _ Hacc), <- !app_assoc. reflexivity.
Qed.

Lemma X16_witness :
  run (sim_transport demo_regs) (main decimal_int ["efuse"; "STATUS"]) []
  = ([] ++ session_start ++ [EvPrint [Lit "Unknown command"]; EvClose], Ok tt).
Proof.
  apply (proj2 (X16_usage_and_unknown (sim_transport demo_regs) decimal_int
                  ["efuse"; "STATUS"] [] (fun _ _ => eq_refl))
           "efuse" "STATUS" []); [reflexivity|].
  simpl. intros H. repeat (destruct H as [H|H]; [discriminate|]). exact H.
Defined.

(** X17: [on] and [off] pass the parsed integer straight to the rail
    switch: for any integer the page argument parses to, [main] unlocks,
    selects page (n mod 256), waits, writes 0x80 (on) or 0x00 (off) to the
    operation register, closes and returns.  No range check intervenes. *)
Theorem X17_on_off_commands (tr : Transport) (py_int : string -> option Z)
  (prog arg : string) (rest : list string) (page : Z) (h : list event)
  (Hacc : accepts_calls tr) (Hint : py_int arg = Some page) :
  run tr (main py_int (prog :: "on" :: arg :: rest)) h
  = (h ++ session_start ++ switch_io 0x80 page ++ [EvClose], Ok tt) /\
  run tr (main py_int (prog :: "off" :: arg :: rest)) h
  = (h ++ session_start ++ switch_io 0x00 page ++ [EvClose], Ok tt).
Proof.
  split; unfold main; rewrite (run_session_start tr _ h Hacc);
    cbn [List.length Nat.ltb Nat.leb index nth_error lift bind];
    unfold dispatch; cbn [String.eqb Ascii.eqb Bool.eqb];
    cbn [index nth_error lift bind]; unfold int_of_str; rewrite Hint;
    cbn [lift bind]; unfold rail_enable, rail_disable;
    rewrite run_bind, (run_switch tr _ _ _ Hacc);
    unfold usb_close; rewrite (run_emit_ok tr _ _ _ Hacc);
    cbn [run]; rewrite <- !app_assoc; reflexivity.
Qed.

Lemma X17_witness :
  run (sim_transport demo_regs) (main decimal_int ["efuse"; "on"; "300"]) []
  = ([] ++ session_start ++ switch_io 0x80 300 ++ [EvClose], Ok tt).
Proof.
  exact (proj1 (X17_on_off_commands (sim_transport demo_regs) decimal_int
                  "efuse" "300" [] 300 [] (fun _ _ => eq_refl) eq_refl)).
Defined.

(** X18: [on] or [off] without a page argument raises IndexError, and with
    an argument the builtin [int] rejects raises ValueError.  By then the
    device has been unlocked; no page is selected, no rail is switched and
    the bridge is not closed. *)
Theorem X18_on_off_bad_argument (tr : Transport) (py_int : string -> option Z)
  (prog cmd : string) (h : list event)
  (Hacc : accepts_calls tr) (Hcmd : cmd = "on" \/ cmd = "off") :
  run tr (main py_int [prog; cmd]) h = (h ++ session_start, Raise IndexError) /\
  (forall arg rest,
      py_int arg = None ->
      run tr (main py_int (prog :: cmd :: arg :: rest)) h
      = (h ++ session_start, Raise ValueError)).
Proof.
  destruct Hcmd as [-> | ->]; (split; [|intros arg rest Hint]);
    unfold main; rewrite (run_session_start tr _ h Hacc);
    cbn [List.length Nat.ltb Nat.leb index nth_error lift bind];
    unfold dispatch; cbn [String.eqb Ascii.eqb Bool.eqb];
    cbn [index nth_error lift bind]; unfold int_of_str; rewrite ?Hint;
    reflexivity.
Qed.

Lemma X18_witness :
  run (sim_transport demo_regs) (main decimal_int ["efuse"; "on"; "two"]) []
  = ([] ++ session_start, Raise ValueError).
Proof.
  exact (proj2 (X18_on_off_bad_argument (sim_transport demo_regs) decimal_int
                  "efuse" "on" [] (fun _ _ => eq_refl) (or_introl eq_refl))
           "two" [] eq_refl).
Defined.

Lemma run_for_each_switch (tr : Transport) (ctl : Z) (pages : list Z) :
  accepts_calls tr ->
  forall h,
    run tr (for_each pages (fun page => select_page page ;;
                                        write_byte MP5922_ADDR 0x01 ctl)) h
    = (h ++ flat_map (switch_io (ctl mod 256)) pages, Ok tt).
Proof.
  intros Hacc. induction pages as [|page rest IH]; intros h.
  - simpl. now rewrite app_nil_r.
  - cbn [for_each flat_map]. rewrite run_bind, (run_switch tr _ _ _ Hacc), IH.
    now rewrite <- app_assoc.
Qed.

(** X19: [on_all] and [off_all] switch every configured rail, in the order
    of the table: after unlocking, for pages 0, 1, 2 in turn the page
    select, the wait and the operation write (0x80 or 0x00), then the
    close. *)
Theorem X19_all_rails_commands (tr : Transport) (py_int : string -> option Z)
  (prog : string) (rest : list string) (h : list event) (Hacc : accepts_calls tr) :
  run tr (main py_int (prog :: "on_all" :: rest)) h
  = (h ++ session_start ++ flat_map (switch_io 0x80) (map fst PAGES) ++ [EvClose],
     Ok tt) /\
  run tr (main py_int (prog :: "off_all" :: rest)) h
  = (h ++ session_start ++ flat_map (switch_io 0x00) (map fst PAGES) ++ [EvClose],
     Ok tt).
Proof.
  split; unfold main; rewrite (run_session_start tr _ h Hacc);
    cbn [List.length Nat.ltb Nat.leb index nth_error lift bind];
    unfold dispatch; cbn [String.eqb Ascii.eqb Bool.eqb];
    rewrite run_bind.
  - change rail_enable
      with (fun page => select_page page ;; write_byte MP5922_ADDR 0x01 0x80).
    rewrite (run_for_each_switch tr 0x80 _ Hacc).
    unfold usb_close. rewrite (run_emit_ok tr _ _ _ Hacc).
    cbn [run]. rewrite <- !app_assoc. reflexivity.
  - change rail_disable
      with (fun page => select_page page ;; write_byte MP5922_ADDR 0x01 0x00).
    rewrite (run_for_each_switch tr 0x00 _ Hacc).
    unfold usb_close. rewrite (run_emit_ok tr _ _ _ Hacc).
    cbn [run]. rewrite <- !app_assoc. reflexivity.
Qed.

Lemma X19_witness :
  run (sim_transport demo_regs) (main decimal_int ["efuse"; "off_all"]) []
  = ([] ++ session_start ++ flat_map (switch_io 0x00) (map fst PAGES) ++ [EvClose],
     Ok tt).
Proof.
  exact (proj2 (X19_all_rails_commands (sim_transport demo_regs) decimal_int
                  "efuse" [] [] (fun _ _ => eq_refl))).
Defined.

Lemma responsive_accepts (tr : Transport) : responsive tr -> accepts_calls tr.
Proof. intros [_ H]. exact H. Qed.

(** X20: the [status] command is the unlock, one status display and the
    close: on a transport that answers every call [main] returns, and its
    device accesses and waits are the session start, the accesses of the
    display over the three configured rails, and the close.  The [clear]
    command is the unlock, the data-less write to register 0x03, the
    10 ms wait, a confirmation line and the close. *)
Theorem X20_status_and_clear_commands (tr : Transport) (py_int : string -> option Z)
  (prog : string) (rest : list string) (h : list event) (Htr : responsive tr) :
  (exists h',
      run tr (main py_int (prog :: "status" :: rest)) h = (h', Ok tt) /\
      io_log h' = io_log h ++ session_start ++ status_io PAGES ++ [EvClose]) /\
  run tr (main py_int (prog :: "clear" :: rest)) h
  = (h ++ session_start ++
       [EvWrite MP5922_ADDR 0x03 []; EvSleep 0.01;
        EvPrint [Lit "[OK] Faults cleared"]; EvClose], Ok tt).
Proof.
  pose proof (responsive_accepts tr Htr) as Hacc.
  split; unfold main; rewrite (run_session_start tr _ h Hacc);
    cbn [List.length Nat.ltb Nat.leb index nth_error lift bind];
    unfold dispatch; cbn [String.eqb Ascii.eqb Bool.eqb].
  - rewrite !run_bind.
    pose proof (sat_show_status tr PAGES (h ++ session_start)) as Hsat.
    unfold run_sat in Hsat. unfold show_status.
    destruct (run tr (show_status_of PAGES) (h ++ session_start)) as [h1 [rep|e]].
    + destruct Hsat as [Hio _]. cbn [run]. unfold usb_close.
      rewrite (run_emit_ok tr _ _ _ Hacc). cbn [run].
      eexists. split; [reflexivity|].
      rewrite io_log_app, Hio, io_log_app, <- !app_assoc. reflexivity.
    + destruct (responsive_no_failure tr h1 e Htr Hsat).
  - unfold clear_faults, i2c_write, sleep, print, usb_close. cbn [bind].
    rewrite !(run_emit_ok tr _ _ _ Hacc). cbn [run].
    rewrite <- !app_assoc. reflexivity.
Qed.

Lemma X20_witness :
  run (sim_transport demo_regs) (main decimal_int ["efuse"; "clear"]) []
  = ([] ++ session_start ++
       [EvWrite MP5922_ADDR 0x03 []; EvSleep 0.01;
        EvPrint [Lit "[OK] Faults cleared"]; EvClose], Ok tt).
Proof.
  exact (proj2 (X20_status_and_clear_commands (sim_transport demo_regs) decimal_int
                  "efuse" [] [] (sim_transport_responsive demo_regs))).
Defined.
